(** * createemail/main.py: the Paperless report mail, embedded in Rocq

    The script queries a Paperless instance over HTTP, joins the documents
    with correspondent and tag names, computes the age of every document and
    renders a subject line and an HTML body.

    The embedding follows [src/scripts/other/createemail/main.py] function by
    function, under the names of the source.

    - What [response.json()] returns is a [pyval].  JSON numbers are
      integers here, a str is a sequence of characters with code points
      below 256, and a JSON object lists one entry per key.
    - A Python exception is the [Raise] outcome of a computation; a
      [try]/[except] is a match on the outcome.
    - The network and [print] are the two components of [world]: the
      requests sent so far, which the answer of the server may depend on,
      and the lines printed so far.
    - The [while] loop of [get_tags_map] runs on fuel.
    - [datetime.strptime] and [date.toordinal] follow the standard library
      of Python 3 ([_strptime.py], [datetime.py]); comparisons follow
      Python 3, where an int and a str do not compare. *)

From Stdlib Require Import ZArith String Ascii List Lia DecimalString.
From stdpp Require Import gmap strings list.
Import ListNotations.

Local Open Scope string_scope.
Local Open Scope Z_scope.

(** ** Python values *)

#[local] Set Warnings "-register-all".

Inductive pyval : Type :=
| VNone
| VBool (b : bool)
| VInt (n : Z)
| VStr (s : string)
| VList (l : list pyval)
| VDict (d : list (string * pyval)).

(** [bool(v)], as used by [if not v] and [while v]. *)
Definition truthy (v : pyval) : bool :=
  match v with
  | VNone => false
  | VBool b => b
  | VInt n => negb (n =? 0)
  | VStr s => negb (String.eqb s "")
  | VList l => match l with [] => false | _ => true end
  | VDict d => match d with [] => false | _ => true end
  end.

(** The result of [calculate_age]: an [int], or the string ["N/A"]. *)
Inductive age : Type :=
| Days (n : Z)
| NA.

(** ** Exceptions *)

Inductive type_error : Type :=
| Unhashable (v : pyval)          (* a list or dict used as a dict key *)
| NotIterable (v : pyval)         (* [for x in v] *)
| NotContainer (v : pyval)        (* ["id" in v] *)
| BadIndex (v : pyval)            (* [v["id"]] on a str or a list *)
| StrptimeArg (v : pyval)         (* [strptime(v, ...)], v not a str *)
| JoinItem (v : pyval)            (* [", ".join] over a non-str item *)
| Incomparable (a b : age)        (* [a < b] between an int and a str *)
| GreaterThanInt (a : age).       (* [a > 30], a a str *)

Inductive exn : Type :=
| TypeError (t : type_error)
| AttributeError (v : pyval)      (* [v.get], v not a dict *)
| KeyError (k : string).          (* [v[k]], k not a key of the dict v *)

Inductive outcome (A : Type) : Type :=
| Ok (a : A)
| Raise (e : exn).
Arguments Ok {A} a.
Arguments Raise {A} e.

(** ** Dictionaries *)

(** A JSON object keeps its entries as a list, one entry per key; a
    lookup finds the first entry of the key. *)
Fixpoint assoc (k : string) (d : list (string * pyval)) : option pyval :=
  match d with
  | [] => None
  | (k', v) :: d' => if String.eqb k k' then Some v else assoc k d'
  end.

(** [d.get(k, default)] on a value [d]. *)
Definition py_get (d : pyval) (k : string) (default : pyval) : outcome pyval :=
  match d with
  | VDict e => Ok (match assoc k e with Some v => v | None => default end)
  | _ => Raise (AttributeError d)
  end.

(** Hashable values as dictionary keys.  Python compares keys with [==]:
    [True] and [1] are the same key, as are [False] and [0]. *)
Inductive hkey : Type :=
| KNone
| KInt (n : Z)
| KStr (s : string).

Global Instance hkey_eq_dec : EqDecision hkey.
Proof. solve_decision. Defined.

Global Instance hkey_countable : Countable hkey.
Proof.
  refine (inj_countable'
    (fun k => match k with
              | KNone => inl ()
              | KInt n => inr (inl n)
              | KStr s => inr (inr s)
              end)
    (fun x => match x with
              | inl _ => KNone
              | inr (inl n) => KInt n
              | inr (inr s) => KStr s
              end) _).
  intros []; reflexivity.
Defined.

(** [hash(v)]: lists and dicts are unhashable. *)
Definition to_key (v : pyval) : outcome hkey :=
  match v with
  | VNone => Ok KNone
  | VBool b => Ok (KInt (if b then 1 else 0))
  | VInt n => Ok (KInt n)
  | VStr s => Ok (KStr s)
  | VList _ | VDict _ => Raise (TypeError (Unhashable v))
  end.

(** [m.get(k, default)] on an id→name dictionary. *)
Definition map_get (m : gmap hkey pyval) (k : pyval) (default : pyval)
  : outcome pyval :=
  match to_key k with
  | Ok h => Ok (match m !! h with Some v => v | None => default end)
  | Raise e => Raise e
  end.

(** [m[k] = v]. *)
Definition map_set (m : gmap hkey pyval) (k v : pyval)
  : outcome (gmap hkey pyval) :=
  match to_key k with
  | Ok h => Ok (<[h := v]> m)
  | Raise e => Raise e
  end.

(** ** Strings *)

(** [str(n)] for an [int]. *)
Definition str_int (n : Z) : string := NilZero.string_of_int (Z.to_int n).

Definition join (sep : string) (l : list string) : string :=
  match l with
  | [] => ""
  | x :: l' => fold_left (fun acc y => acc +:+ sep +:+ y) l' x
  end.

(** [''.join(l)]. *)
Definition concat_str (l : list string) : string :=
  fold_right String.append "" l.

Section Repr.
(** [repr] of a [str] (quoting and escaping) is the interpreter's. *)
Variable repr_str : string -> string.

Fixpoint py_repr (v : pyval) : string :=
  match v with
  | VNone => "None"
  | VBool true => "True"
  | VBool false => "False"
  | VInt n => str_int n
  | VStr s => repr_str s
  | VList l => "[" +:+ join ", " (map py_repr l) +:+ "]"
  | VDict d =>
      "{" +:+ join ", "
                (map (fun kv => repr_str (fst kv) +:+ ": " +:+ py_repr (snd kv)) d)
          +:+ "}"
  end.

(** [str(v)], which is what an f-string field [{v}] formats. *)
Definition py_str (v : pyval) : string :=
  match v with
  | VStr s => s
  | _ => py_repr v
  end.
End Repr.

Definition str_age (a : age) : string :=
  match a with
  | Days n => str_int n
  | NA => "N/A"
  end.

(** ** Dates *)

Record date : Type := mkdate { year : Z; month : Z; day : Z }.

Definition is_leap (y : Z) : bool :=
  (y mod 4 =? 0) && (negb (y mod 100 =? 0) || (y mod 400 =? 0)).

Definition days_in_month (y m : Z) : Z :=
  if m =? 2 then (if is_leap y then 29 else 28)
  else if (m =? 4) || (m =? 6) || (m =? 9) || (m =? 11) then 30
  else 31.

Definition days_before_month (y m : Z) : Z :=
  (match m with
   | 1 => 0 | 2 => 31 | 3 => 59 | 4 => 90 | 5 => 120 | 6 => 151
   | 7 => 181 | 8 => 212 | 9 => 243 | 10 => 273 | 11 => 304 | _ => 334
   end) + (if (2 <? m) && is_leap y then 1 else 0).

Definition days_before_year (y : Z) : Z :=
  let p := y - 1 in p * 365 + p / 4 - p / 100 + p / 400.

(** [date.toordinal()]: 1 for the first of January of year 1. *)
Definition toordinal (d : date) : Z :=
  days_before_year (year d) + days_before_month (year d) (month d) + day d.

(** What the [date] constructor accepts; anything else is a [ValueError]. *)
Definition valid_date (d : date) : bool :=
  (1 <=? year d) && (year d <=? 9999) &&
  (1 <=? month d) && (month d <=? 12) &&
  (1 <=? day d) && (day d <=? days_in_month (year d) (month d)).

(** Lexicographic order on (year, month, day). *)
Definition date_lt (a b : date) : Prop :=
  year a < year b \/
  (year a = year b /\ (month a < month b \/ (month a = month b /\ day a < day b))).

(** The day after [d] in the calendar. *)
Definition tomorrow (d : date) : date :=
  if day d <? days_in_month (year d) (month d)
  then mkdate (year d) (month d) (day d + 1)
  else if month d <? 12
       then mkdate (year d) (month d + 1) 1
       else mkdate (year d + 1) 1 1.

(** *** [datetime.strptime(s, "%Y-%m-%d")]

    The format compiles to the regular expression
    [(\d\d\d\d)-(1[0-2]|0[1-9]|[1-9])-(3[0-1]|[1-2]\d|0[1-9]|[1-9]| [1-9])],
    matched at the start of the string; the alternatives are tried in
    order, input left over after the match is an error, and so is a date
    that the [datetime] constructor refuses. *)

Definition digit_val (c : ascii) : option Z :=
  let n := Z.of_N (N_of_ascii c) in
  if (48 <=? n) && (n <=? 57) then Some (n - 48) else None.

Definition digit_in (lo hi : Z) (c : ascii) : option Z :=
  match digit_val c with
  | Some n => if (lo <=? n) && (n <=? hi) then Some n else None
  | None => None
  end.

Definition chars (s : string) : list ascii := list_ascii_of_string s.

(** [\d\d\d\d] *)
Definition match_year (l : list ascii) : option (Z * list ascii) :=
  match l with
  | a :: b :: c :: d :: r =>
      match digit_val a, digit_val b, digit_val c, digit_val d with
      | Some a, Some b, Some c, Some d =>
          Some (1000 * a + 100 * b + 10 * c + d, r)
      | _, _, _, _ => None
      end
  | _ => None
  end.

(** One alternative [[lo1-hi1][lo2-hi2]] with two digits. *)
Definition two_digits (lo1 hi1 lo2 hi2 : Z) (l : list ascii)
  : list (Z * list ascii) :=
  match l with
  | a :: b :: r =>
      match digit_in lo1 hi1 a, digit_in lo2 hi2 b with
      | Some a, Some b => [(10 * a + b, r)]
      | _, _ => []
      end
  | _ => []
  end.

Definition one_digit (lo hi : Z) (l : list ascii) : list (Z * list ascii) :=
  match l with
  | a :: r =>
      match digit_in lo hi a with
      | Some a => [(a, r)]
      | None => []
      end
  | _ => []
  end.

(** [ [1-9]]: a space, then a digit. *)
Definition space_digit (l : list ascii) : list (Z * list ascii) :=
  match l with
  | " "%char :: r => one_digit 1 9 r
  | _ => []
  end.

(** [1[0-2]|0[1-9]|[1-9]]: the matches, in the order the engine tries them. *)
Definition match_month (l : list ascii) : list (Z * list ascii) :=
  (two_digits 1 1 0 2 l ++ two_digits 0 0 1 9 l ++ one_digit 1 9 l)%list.

(** [3[0-1]|[1-2]\d|0[1-9]|[1-9]| [1-9]] *)
Definition match_day (l : list ascii) : list (Z * list ascii) :=
  (two_digits 3 3 0 1 l ++ two_digits 1 2 0 9 l ++ two_digits 0 0 1 9 l
     ++ one_digit 1 9 l ++ space_digit l)%list.

Definition expect_dash (l : list ascii) : option (list ascii) :=
  match l with
  | "-"%char :: r => Some r
  | _ => None
  end.

(** After the month: a dash and a day.  The first month alternative for
    which the rest of the pattern matches is the one the engine keeps. *)
Fixpoint match_rest (y : Z) (ms : list (Z * list ascii))
  : option (date * list ascii) :=
  match ms with
  | [] => None
  | (m, r) :: ms' =>
      match expect_dash r with
      | Some r' =>
          match match_day r' with
          | (d, r'') :: _ => Some (mkdate y m d, r'')
          | [] => match_rest y ms'
          end
      | None => match_rest y ms'
      end
  end.

Definition regex_match (l : list ascii) : option (date * list ascii) :=
  match match_year l with
  | Some (y, r) =>
      match expect_dash r with
      | Some r' => match_rest y (match_month r')
      | None => None
      end
  | None => None
  end.

(** [None] stands for [ValueError]. *)
Definition strptime_ymd (s : string) : option date :=
  match regex_match (chars s) with
  | Some (d, []) => if valid_date d then Some d else None
  | _ => None
  end.

(** [d.isoformat()]: the date as [YYYY-MM-DD], zero padded. *)
Definition digit_char (n : Z) : ascii := ascii_of_N (Z.to_N (48 + n)).

Definition isoformat (d : date) : string :=
  string_of_list_ascii
    [digit_char (year d / 1000 mod 10); digit_char (year d / 100 mod 10);
     digit_char (year d / 10 mod 10); digit_char (year d mod 10);
     "-"%char;
     digit_char (month d / 10); digit_char (month d mod 10);
     "-"%char;
     digit_char (day d / 10); digit_char (day d mod 10)].

(** ** calculate_age *)

Section Age.
(** [date.today()] *)
Variable today : date.

Definition calculate_age (created_date_str : pyval) : outcome age :=
  if negb (truthy created_date_str) then Ok NA
  else
    match created_date_str with
    | VStr s =>
        match strptime_ymd s with
        | Some created_date => Ok (Days (toordinal today - toordinal created_date))
        | None => Ok NA
        end
    | _ => Raise (TypeError (StrptimeArg created_date_str))
    end.
End Age.


(** ** Containers: iteration, membership, indexing *)

Definition char_str (c : ascii) : pyval := VStr (String c EmptyString).

(** [for x in v]: the items of a list, the characters of a str, the keys
    of a dict. *)
Definition py_iter (v : pyval) : outcome (list pyval) :=
  match v with
  | VList l => Ok l
  | VStr s => Ok (map char_str (chars s))
  | VDict d => Ok (map VStr (remove_dups (map fst d)))
  | _ => Raise (TypeError (NotIterable v))
  end.

Definition is_str (k : string) (v : pyval) : bool :=
  match v with
  | VStr s => String.eqb s k
  | _ => false
  end.

Definition is_substring (k s : string) : bool :=
  match String.index 0 k s with
  | Some _ => true
  | None => false
  end.

(** [k in v] for a str [k]: a key of a dict, an item of a list, a
    substring of a str. *)
Definition py_contains (k : string) (v : pyval) : outcome bool :=
  match v with
  | VDict d => Ok (match assoc k d with Some _ => true | None => false end)
  | VList l => Ok (existsb (is_str k) l)
  | VStr s => Ok (is_substring k s)
  | _ => Raise (TypeError (NotContainer v))
  end.

(** [v[k]] for a str [k]. *)
Definition py_index (v : pyval) (k : string) : outcome pyval :=
  match v with
  | VDict d =>
      match assoc k d with
      | Some x => Ok x
      | None => Raise (KeyError k)
      end
  | _ => Raise (TypeError (BadIndex v))
  end.

(** [sep.join(l)]: every item has to be a str. *)
Fixpoint strs_of (l : list pyval) : outcome (list string) :=
  match l with
  | [] => Ok []
  | VStr s :: l' =>
      match strs_of l' with
      | Ok r => Ok (s :: r)
      | Raise e => Raise e
      end
  | v :: _ => Raise (TypeError (JoinItem v))
  end.

Definition py_join (sep : string) (l : list pyval) : outcome string :=
  match strs_of l with
  | Ok r => Ok (join sep r)
  | Raise e => Raise e
  end.

(** ** Pure computations that may raise *)

Definition obind {A B} (x : outcome A) (f : A -> outcome B) : outcome B :=
  match x with
  | Ok a => f a
  | Raise e => Raise e
  end.

Declare Scope outcome_scope.
Delimit Scope outcome_scope with outcome.
Notation "x <- c ;; k" := (obind c (fun x => k))
  (at level 100, c at next level, right associativity) : outcome_scope.

Fixpoint omap {A B} (f : A -> outcome B) (l : list A) : outcome (list B) :=
  match l with
  | [] => Ok []
  | x :: l' =>
      (y <- f x ;; r <- omap f l' ;; Ok (y :: r))%outcome
  end.

Fixpoint ofold {A B} (f : A -> B -> outcome A) (l : list B) (a : A) : outcome A :=
  match l with
  | [] => Ok a
  | x :: l' => (a' <- f a x ;; ofold f l' a')%outcome
  end.

(** ** The world: the requests sent so far, and what was printed *)

Record world : Type := mkworld { requests : list pyval; stdout : list string }.

Inductive http_result : Type :=
| Response (json : pyval)             (* [response.json()] *)
| RequestException (e : string).      (* the text of the exception *)

Definition M (A : Type) : Type := world -> outcome A * world.

Definition ret {A} (a : A) : M A := fun w => (Ok a, w).

Definition bind {A B} (c : M A) (f : A -> M B) : M B :=
  fun w =>
    match c w with
    | (Ok a, w') => f a w'
    | (Raise e, w') => (Raise e, w')
    end.

Definition lift {A} (x : outcome A) : M A := fun w => (x, w).

Declare Scope io_scope.
Delimit Scope io_scope with io.
Notation "x <- c ;; k" := (bind c (fun x => k))
  (at level 100, c at next level, right associativity) : io_scope.
Notation "c ;;; k" := (bind c (fun _ => k))
  (at level 100, right associativity) : io_scope.

Definition print (s : string) : M unit :=
  fun w => (Ok tt, mkworld (requests w) (stdout w ++ [s])).

Definition sent (url : pyval) : M unit :=
  fun w => (Ok tt, mkworld (requests w ++ [url]) (stdout w)).

(** ** The script *)

(** A correspondent as [get_correspondents] builds it:
    [{"id": ..., "correspondent": ...}]. *)
Record correspondent : Type := mkcorr { corr_id : pyval; corr_name : pyval }.

Definition nl : string := String "010"%char EmptyString.
Definition dquote : string := String "034"%char EmptyString.

Section Script.
(** [settings["MYURL"]], a str. *)
Variable MYURL : string.
(** [date.today()], the same day during the whole run. *)
Variable today : date.
(** [requests.get(url, headers=headers, timeout=TIMEOUT)], then
    [raise_for_status()] and [json()].  The answer to a request may depend
    on the requests sent before it; a request that fails does so with a
    [RequestException]. *)
Variable http_get : list pyval -> pyval -> http_result.
(** [repr] of a str, and the text [str(e)] of an exception. *)
Variable repr_str : string -> string.
Variable exn_text : exn -> string.

#[local] Abbreviation str := (py_str repr_str).

(** [DEBUG = True] *)
Definition debug_print (message : string) : M unit := print message.

Definition safe_request (url : pyval) : M pyval :=
  fun w =>
    (debug_print ("Requesting URL: " +:+ str url) ;;;
     sent url ;;;
     match http_get (requests w) url with
     | Response json => ret json
     | RequestException e =>
         print ("Error fetching data from " +:+ str url +:+ ": " +:+ e) ;;;
         ret VNone
     end)%io w.

(** *** get_correspondents *)

Definition keep_correspondent (c : pyval) : outcome (list correspondent) :=
  (has_id <- py_contains "id" c ;;
   if has_id then
     has_name <- py_contains "name" c ;;
     if has_name then
       i <- py_index c "id" ;;
       n <- py_index c "name" ;;
       Ok [mkcorr i n]
     else Ok []
   else Ok [])%outcome.

Definition get_correspondents : M (list correspondent) :=
  (data <- safe_request (VStr (MYURL +:+ "/api/correspondents/?page_size=9999")) ;;
   if negb (truthy data) then ret []
   else
     results <- lift (py_get data "results" (VList [])) ;;
     items <- lift (py_iter results) ;;
     kept <- lift (omap keep_correspondent items) ;;
     let correspondents := concat kept in
     debug_print ("Found " +:+ str_int (Z.of_nat (length correspondents))
                    +:+ " correspondents.") ;;;
     ret correspondents)%io.

(** *** get_tags_map *)

(** The body of [for t in data.get("results", [])]. *)
Definition collect_tag (all_tags : gmap hkey pyval) (t : pyval)
  : outcome (gmap hkey pyval) :=
  (has_id <- py_contains "id" t ;;
   if has_id then
     has_name <- py_contains "name" t ;;
     if has_name then
       n <- py_index t "name" ;;
       i <- py_index t "id" ;;
       map_set all_tags i n
     else Ok all_tags
   else Ok all_tags)%outcome.

(** One truthy page: collect its tags, read its [next]. *)
Definition tags_page (data : pyval) (all_tags : gmap hkey pyval)
  : outcome (gmap hkey pyval * pyval) :=
  (results <- py_get data "results" (VList []) ;;
   items <- py_iter results ;;
   all_tags' <- ofold collect_tag items all_tags ;;
   next <- py_get data "next" VNone ;;
   Ok (all_tags', next))%outcome.

(** [while url: ...]; [None] when [fuel] iterations were not enough. *)
Fixpoint tags_loop (fuel : nat) (url : pyval) (all_tags : gmap hkey pyval)
  (w : world) : option (outcome (gmap hkey pyval) * world) :=
  if negb (truthy url) then Some (Ok all_tags, w)
  else
    match fuel with
    | O => None
    | S fuel' =>
        match safe_request url w with
        | (Raise e, w1) => Some (Raise e, w1)
        | (Ok data, w1) =>
            if negb (truthy data) then Some (Ok all_tags, w1)
            else
              match tags_page data all_tags with
              | Raise e => Some (Raise e, w1)
              | Ok (all_tags', next) => tags_loop fuel' next all_tags' w1
              end
        end
    end.

Definition get_tags_map (fuel : nat) (w : world)
  : option (outcome (gmap hkey pyval) * world) :=
  match tags_loop fuel (VStr (MYURL +:+ "/api/tags/")) ∅ w with
  | None => None
  | Some (Raise e, w1) => Some (Raise e, w1)
  | Some (Ok all_tags, w1) =>
      Some ((debug_print ("Found " +:+ str_int (Z.of_nat (size all_tags))
                            +:+ " tags across all pages.") ;;;
             ret all_tags)%io w1)
  end.

(** *** get_document_details *)

Definition get_document_details (doc_id : pyval) : M (pyval * pyval * pyval) :=
  (data <- safe_request (VStr (MYURL +:+ "/api/documents/" +:+ str doc_id +:+ "/")) ;;
   if negb (truthy data) then ret (VStr "N/A", VStr "N/A", VNone)
   else
     o <- lift (py_get data "original_file_name" (VStr "N/A")) ;;
     a <- lift (py_get data "archived_file_name" (VStr "N/A")) ;;
     c <- lift (py_get data "created_date" VNone) ;;
     ret (o, a, c))%io.

(** *** build_subject_line *)

(** [calculate_age(doc.get("created_date"))] *)
Definition doc_age (doc : pyval) : outcome age :=
  (c <- py_get doc "created_date" VNone ;; calculate_age today c)%outcome.

(** [a > k] *)
Definition age_gt (a : age) (k : Z) : outcome bool :=
  match a with
  | Days n => Ok (k <? n)
  | NA => Raise (TypeError (GreaterThanInt a))
  end.

(** [isinstance(a, int)] *)
Definition is_int (a : age) : bool :=
  match a with
  | Days _ => true
  | NA => false
  end.

(** The condition of the generator: [isinstance(age, int) and age > 30],
    the age being computed twice. *)
Definition over_30 (doc : pyval) : outcome bool :=
  (a <- doc_age doc ;;
   if is_int a then a' <- doc_age doc ;; age_gt a' 30 else Ok false)%outcome.

Definition subject (total_docs over_30_count : Z) : string :=
  str_int total_docs +:+ " - files in need of attendance ("
    +:+ str_int over_30_count +:+ " over 30days)".

Definition build_subject_line (docs : list pyval) : outcome string :=
  (let total_docs := Z.of_nat (length docs) in
   flags <- omap over_30 docs ;;
   let over_30_count := Z.of_nat (length (List.filter (fun b : bool => b) flags)) in
   Ok (subject total_docs over_30_count))%outcome.

(** *** build_html_body *)

(** [{c["id"]: c["correspondent"] for c in correspondents}] *)
Definition build_corr_map (correspondents : list correspondent)
  : outcome (gmap hkey pyval) :=
  ofold (fun m c => map_set m (corr_id c) (corr_name c)) correspondents ∅.

(** [a < b] between two sort keys: two ints compare, ["N/A"] is not below
    itself, an int and a str do not compare. *)
Definition age_lt (a b : age) : outcome bool :=
  match a, b with
  | Days x, Days y => Ok (x <? y)
  | NA, NA => Ok false
  | _, _ => Raise (TypeError (Incomparable a b))
  end.

(** [sorted(..., reverse=True)] on (key, item) pairs: a stable sort into
    descending keys that uses [<] only.  [x] stood before every item of
    [l], so it goes before the items of the same key. *)
Fixpoint insert_desc (x : age * pyval) (l : list (age * pyval))
  : outcome (list (age * pyval)) :=
  match l with
  | [] => Ok [x]
  | y :: l' =>
      (below <- age_lt (fst x) (fst y) ;;
       if below then r <- insert_desc x l' ;; Ok (y :: r)
       else Ok (x :: l))%outcome
  end.

Fixpoint sort_desc (l : list (age * pyval)) : outcome (list (age * pyval)) :=
  match l with
  | [] => Ok []
  | x :: l' => (s <- sort_desc l' ;; insert_desc x s)%outcome
  end.

(** [sorted(docs, key=lambda d: calculate_age(d.get("created_date")),
    reverse=True)]: the keys of all items are computed first. *)
Definition sorted_docs (docs : list pyval) : outcome (list pyval) :=
  (keyed <- omap (fun d => k <- doc_age d ;; Ok (k, d)) docs ;;
   s <- sort_desc keyed ;;
   Ok (map snd s))%outcome.

(** The formatted age: red when it is an int above 31. *)
Definition format_age (a : age) : string :=
  match a with
  | Days n =>
      if 31 <? n then "<span style='color:red;'>" +:+ str_int n +:+ "</span>"
      else str_age a
  | NA => str_age a
  end.

(** [tag_map.get(tid, f"Tag-{tid}")] *)
Definition tag_name (tag_map : gmap hkey pyval) (tid : pyval) : outcome pyval :=
  map_get tag_map tid (VStr ("Tag-" +:+ str tid)).

Definition tags_string (tag_map : gmap hkey pyval) (doc_tags : pyval)
  : outcome string :=
  (tids <- py_iter doc_tags ;;
   tag_names <- omap (tag_name tag_map) tids ;;
   match tag_names with
   | [] => Ok "None"
   | _ => py_join ", " tag_names
   end)%outcome.

Definition render_item (doc_id corr_name : pyval) (age_str tags_str : string)
  (original_file_name archived_file_name : pyval) : string :=
  let detail_url := MYURL +:+ "/documents/" +:+ str doc_id +:+ "/" in
  let corr_link := "<a href='" +:+ detail_url +:+ "'><b>" +:+ str corr_name +:+ "</b></a>" in
  "<br><li>"
    +:+ corr_link +:+ "<br>"
    +:+ "<b>Age (days)</b>: " +:+ age_str +:+ "<br>"
    +:+ "<b>Tags</b>: " +:+ tags_str +:+ "<br>"
    +:+ "<b>Original File</b>: " +:+ str original_file_name +:+ "<br>"
    +:+ "<b>Archived File</b>: " +:+ str archived_file_name +:+ "<br>"
    +:+ "</li>".

(** The body of the [try]: [None] is the [continue] of a document without
    an id, [Some line] the item that is appended. *)
Definition process_doc (corr_map tag_map : gmap hkey pyval) (doc : pyval)
  : M (option string) :=
  (doc_id <- lift (py_get doc "id" VNone) ;;
   corr_id <- lift (py_get doc "correspondent" VNone) ;;
   doc_tags <- lift (py_get doc "tags" (VList [])) ;;
   if negb (truthy doc_id) then ret None
   else
     corr_name <- lift (map_get corr_map corr_id (VStr "No Correspondent")) ;;
     details <- get_document_details doc_id ;;
     let '(original_file_name, archived_file_name, created_date_str) := details in
     a <- lift (calculate_age today created_date_str) ;;
     let age_str := format_age a in
     tags_str <- lift (tags_string tag_map doc_tags) ;;
     ret (Some (render_item doc_id corr_name age_str tags_str
                  original_file_name archived_file_name)))%io.

(** The [except Exception as e] clause. *)
Definition report_failure (doc : pyval) (e : exn) : M unit :=
  (i <- lift (py_get doc "id" (VStr "unknown")) ;;
   print ("Error processing document ID " +:+ str i +:+ ": " +:+ exn_text e))%io.

(** [for doc in sorted_docs: try: ... except ...]: the lines appended. *)
Fixpoint render_docs (corr_map tag_map : gmap hkey pyval) (docs : list pyval)
  : M (list string) :=
  match docs with
  | [] => ret []
  | doc :: docs' =>
      fun w =>
        match process_doc corr_map tag_map doc w with
        | (Ok (Some line), w1) =>
            (lines <- render_docs corr_map tag_map docs' ;; ret (line :: lines))%io w1
        | (Ok None, w1) => render_docs corr_map tag_map docs' w1
        | (Raise e, w1) =>
            (report_failure doc e ;;; render_docs corr_map tag_map docs')%io w1
        end
  end.

Definition html_page (lines : list string) : string :=
  nl +:+ "<html>" +:+ nl
    +:+ "  <head>" +:+ nl
    +:+ "    <meta charset=" +:+ dquote +:+ "utf-8" +:+ dquote +:+ "/>" +:+ nl
    +:+ "  </head>" +:+ nl
    +:+ "  <body>" +:+ nl
    +:+ "    <p>Here are your documents:</p>" +:+ nl
    +:+ "    <ul>" +:+ nl
    +:+ "      " +:+ concat_str lines +:+ nl
    +:+ "    </ul>" +:+ nl
    +:+ "    <p>Your trusted PaperlessNGX Runner</p>" +:+ nl
    +:+ "  </body>" +:+ nl
    +:+ "</html>" +:+ nl.

(** The items of the list, the placeholder included. *)
Definition body_items (lines : list string) : list string :=
  match lines with
  | [] => ["<li>No documents found.</li>"]
  | _ => lines
  end.

Definition build_html_items (docs : list pyval)
  (correspondents : list correspondent) (tag_map : gmap hkey pyval)
  : M (list string) :=
  (corr_map <- lift (build_corr_map correspondents) ;;
   sorted <- lift (sorted_docs docs) ;;
   lines <- render_docs corr_map tag_map sorted ;;
   ret (body_items lines))%io.

Definition build_html_body (docs : list pyval)
  (correspondents : list correspondent) (tag_map : gmap hkey pyval)
  : M string :=
  (items <- build_html_items docs correspondents tag_map ;;
   ret (html_page items))%io.

(** *** get_documents *)

(** [settings["SEARCHPATH"]], a str. *)
Variable SEARCHPATH : string.

(** [len(v)].  The values without a length are the values that do not
    iterate; [len] raises a [TypeError] on them as well. *)
Definition py_len (v : pyval) : outcome Z :=
  match v with
  | VList l => Ok (Z.of_nat (length l))
  | VStr s => Ok (Z.of_nat (String.length s))
  | VDict d => Ok (Z.of_nat (length (remove_dups (map fst d))))
  | _ => Raise (TypeError (NotIterable v))
  end.

Definition get_documents : M pyval :=
  (data <- safe_request (VStr (MYURL +:+ "/api/documents/" +:+ SEARCHPATH)) ;;
   if negb (truthy data) then ret (VList [])
   else
     documents <- lift (py_get data "results" (VList [])) ;;
     n <- lift (py_len documents) ;;
     debug_print ("Found " +:+ str_int n +:+ " documents.") ;;;
     ret documents)%io.

(** *** send_email_with_mail_command *)

(** [settings["TO"]]: a str, or a list. *)
Variable TO : pyval.

(** One run of the [mail] command: [mail -a ... -s subject recipient],
    with the body on its standard input. *)
Record mail_call : Type :=
  mkmail { mail_subject : string; mail_recipient : string; mail_body : string }.

(** What [Popen] and [communicate] come to: the return code of the
    process, or an exception with its text. *)
Inductive mail_result : Type :=
| Exited (returncode : Z)
| MailException (text : string).

(** What the [try] raises before a process is started. *)
Inductive mail_error : Type :=
| NoRecipient                  (* [TO[0]] on an empty list: IndexError *)
| BadRecipient (v : pyval).    (* [Popen] on an argument that is no str: TypeError *)

(** The [mail] command; its result may depend on the runs before. *)
Variable mail_command : list (mail_call * Z) -> mail_call -> mail_result.
Variable mail_error_text : mail_error -> string.

(** The world together with the runs of [mail] and their return codes. *)
Record system : Type :=
  mksystem { net : world; mailed : list (mail_call * Z) }.

Definition P (A : Type) : Type := system -> outcome A * system.

Definition run_io {A} (c : M A) : P A :=
  fun s => let (r, w) := c (net s) in (r, mksystem w (mailed s)).

Definition pbind {A B} (c : P A) (f : A -> P B) : P B :=
  fun s =>
    match c s with
    | (Ok a, s') => f a s'
    | (Raise e, s') => (Raise e, s')
    end.

Declare Scope sys_scope.
Delimit Scope sys_scope with sys.
Notation "x <- c ;; k" := (pbind c (fun x => k))
  (at level 100, c at next level, right associativity) : sys_scope.
Notation "c ;;; k" := (pbind c (fun _ => k))
  (at level 100, right associativity) : sys_scope.

(** [TO[0] if isinstance(TO, list) else TO] *)
Definition recipient_of (to : pyval) : mail_error + pyval :=
  match to with
  | VList [] => inl NoRecipient
  | VList (first :: _) => inr first
  | _ => inr to
  end.

Definition run_mail (call : mail_call) : P mail_result :=
  fun s =>
    match mail_command (mailed s) call with
    | Exited returncode =>
        (Ok (Exited returncode),
         mksystem (net s) (mailed s ++ [(call, returncode)]))
    | MailException text => (Ok (MailException text), s)
    end.

(** Every exception of the [try] ends in the [except Exception] clause. *)
Definition send_email_with_mail_command (subject_line body : string) : P unit :=
  (run_io (debug_print "Sending email via `mail` command...") ;;;
   match recipient_of TO with
   | inl err => run_io (print ("Error sending email: " +:+ mail_error_text err))
   | inr (VStr recipient) =>
       result <- run_mail (mkmail subject_line recipient body) ;;
       match result with
       | Exited returncode =>
           if returncode =? 0
           then run_io (debug_print "Email sent successfully.")
           else run_io (print "Failed to send email with the `mail` command.")
       | MailException text => run_io (print ("Error sending email: " +:+ text))
       end
   | inr v =>
       run_io (print ("Error sending email: " +:+ mail_error_text (BadRecipient v)))
   end)%sys.

(** *** main *)

(** The steps of [main] before the mail.  [docs] is only measured and
    iterated: its items stand for it. *)
Definition fetch_and_build (fuel : nat) (w : world)
  : option (outcome (string * string) * world) :=
  match (debug_print "Starting script..." ;;; get_correspondents)%io w with
  | (Raise e, w1) => Some (Raise e, w1)
  | (Ok correspondents, w1) =>
      match get_tags_map fuel w1 with
      | None => None
      | Some (Raise e, w2) => Some (Raise e, w2)
      | Some (Ok tag_map, w2) =>
          Some ((docs <- get_documents ;;
                 items <- lift (py_iter docs) ;;
                 subject_line <- lift (build_subject_line items) ;;
                 debug_print ("Using subject: " +:+ subject_line) ;;;
                 email_body <- build_html_body items correspondents tag_map ;;
                 ret (subject_line, email_body))%io w2)
      end
  end.

(** The body of the [try] of [main]. *)
Definition main_body (fuel : nat) (s : system) : option (outcome unit * system) :=
  match fetch_and_build fuel (net s) with
  | None => None
  | Some (Raise e, w) => Some (Raise e, mksystem w (mailed s))
  | Some (Ok (subject_line, email_body), w) =>
      Some ((send_email_with_mail_command subject_line email_body ;;;
             run_io (debug_print "Script completed successfully."))%sys
              (mksystem w (mailed s)))
  end.

Definition main (fuel : nat) (s : system) : option (outcome unit * system) :=
  match main_body fuel s with
  | None => None
  | Some (Ok _, s') => Some (Ok tt, s')
  | Some (Raise e, s') =>
      Some (run_io (print ("Error during execution: " +:+ exn_text e)) s')
  end.

(** ** Notions used in the statements *)

Definition is_dict (v : pyval) : bool :=
  match v with
  | VDict _ => true
  | _ => false
  end.

(** [doc.get(k)] of a JSON object; [None] when the key is missing. *)
Definition field (k : string) (doc : pyval) : pyval :=
  match doc with
  | VDict e => match assoc k e with Some v => v | None => VNone end
  | _ => VNone
  end.

(** A document whose [created_date] is a str, missing, null, or another
    falsy value: [calculate_age] does not raise on it. *)
Definition datable (doc : pyval) : bool :=
  is_dict doc &&
  match field "created_date" doc with
  | VStr _ => true
  | v => negb (truthy v)
  end.

(** The age of a date string: the days since the date it parses to,
    ["N/A"] otherwise. *)
Definition age_of_string (s : string) : age :=
  match strptime_ymd s with
  | Some created => Days (toordinal today - toordinal created)
  | None => NA
  end.

Definition age_of (v : pyval) : age :=
  match v with
  | VStr s => age_of_string s
  | _ => NA
  end.

(** The age of the document is an int above [k]. *)
Definition aged_over (k : Z) (doc : pyval) : bool :=
  match age_of (field "created_date" doc) with
  | Days n => k <? n
  | NA => false
  end.

Definition count_over (k : Z) (docs : list pyval) : Z :=
  Z.of_nat (length (List.filter (aged_over k) docs)).

Definition hashable (v : pyval) : bool :=
  match v with
  | VList _ | VDict _ => false
  | _ => true
  end.

Definition is_null (v : pyval) : bool :=
  match v with
  | VNone => true
  | _ => false
  end.

(** The key of a hashable value. *)
Definition key_of (v : pyval) : hkey :=
  match v with
  | VNone => KNone
  | VBool b => KInt (if b then 1 else 0)
  | VInt n => KInt n
  | VStr s => KStr s
  | VList _ | VDict _ => KNone
  end.

(** The id→name dictionary of correspondents with hashable ids: a later
    correspondent replaces an earlier one of the same id. *)
Definition corr_map_of (correspondents : list correspondent) : gmap hkey pyval :=
  fold_left (fun m c => <[key_of (corr_id c) := corr_name c]> m) correspondents ∅.

(** *** Sample data *)

Definition sample_url : string := "http://paperless:8000".
Definition sample_today : date := mkdate 2025 1 23.
Definition sample_repr (s : string) : string := "'" +:+ s +:+ "'".
Definition sample_text (e : exn) : string :=
  match e with
  | TypeError _ => "TypeError"
  | AttributeError _ => "AttributeError"
  | KeyError _ => "KeyError"
  end.

Definition doc_old : pyval :=
  VDict [("id", VInt 1); ("created_date", VStr "2020-01-01");
         ("correspondent", VInt 5); ("tags", VList [VInt 1; VInt 7])].
Definition doc_31 : pyval :=
  VDict [("id", VInt 2); ("created_date", VStr "2024-12-23");
         ("correspondent", VNone); ("tags", VList [])].
Definition doc_undated : pyval :=
  VDict [("id", VInt 3); ("tags", VList [VInt 1])].
Definition doc_future : pyval :=
  VDict [("id", VInt 4); ("created_date", VStr "2025-02-01")].
Definition doc_no_id : pyval :=
  VDict [("id", VInt 0); ("created_date", VStr "2020-01-01")].
Definition doc_null_tags : pyval :=
  VDict [("id", VInt 6); ("created_date", VStr "2020-01-01"); ("tags", VNone)].

Definition sample_correspondents : list correspondent :=
  [mkcorr (VInt 5) (VStr "ACME"); mkcorr (VInt 8) (VStr "Bank")].
Definition sample_tag_map : gmap hkey pyval :=
  <[KInt 1 := VStr "inbox"]> (<[KInt 3 := VStr "todo"]> ∅).



(** The world after [print(s)]. *)
Definition printed (w : world) (s : string) : world :=
  mkworld (requests w) (stdout w ++ [s]).

(** Descending keys: no item is below its successor. *)
Fixpoint descending (l : list (age * pyval)) : Prop :=
  match l with
  | [] => True
  | x :: l' =>
      match l' with
      | [] => True
      | y :: _ => age_lt (fst x) (fst y) = Ok false
      end /\ descending l'
  end.

(** Two ages of the same Python type: both int, or both the str ["N/A"]. *)
Definition same_type (a b : age) : bool :=
  match a, b with
  | Days _, Days _ | NA, NA => true
  | _, _ => false
  end.

(** A document paired with its sort key. *)
Definition keyed (doc : pyval) : age * pyval :=
  (age_of (field "created_date" doc), doc).

Definition sample_details_1 : pyval :=
  VDict [("original_file_name", VStr "a.pdf");
         ("archived_file_name", VStr "a-archive.pdf");
         ("created_date", VStr "2020-01-01")].
Definition sample_details_2 : pyval :=
  VDict [("original_file_name", VStr "b.pdf");
         ("created_date", VStr "2024-12-23")].
Definition sample_tags_page_1 : pyval :=
  VDict [("results", VList [VDict [("id", VInt 1); ("name", VStr "inbox")];
                            VDict [("id", VInt 2)]]);
         ("next", VStr "http://paperless:8000/api/tags/?page=2")].
Definition sample_tags_page_2 : pyval :=
  VDict [("results", VList [VDict [("id", VInt 3); ("name", VStr "todo")]]);
         ("next", VStr "http://paperless:8000/api/tags/?page=3")].

(** A server that knows two documents and two pages of tags; every other
    request fails. *)
Definition sample_http (history : list pyval) (url : pyval) : http_result :=
  match url with
  | VStr u =>
      if String.eqb u "http://paperless:8000/api/documents/1/"
      then Response sample_details_1
      else if String.eqb u "http://paperless:8000/api/documents/2/"
      then Response sample_details_2
      else if String.eqb u "http://paperless:8000/api/tags/"
      then Response sample_tags_page_1
      else if String.eqb u "http://paperless:8000/api/tags/?page=2"
      then Response sample_tags_page_2
      else RequestException "503 Server Error"
  | _ => RequestException "Invalid URL"
  end.

Definition world0 : world := mkworld [] [].

(** *** Pages of tags *)

(** The id→name pair of a tag record that has both keys. *)
Definition tag_pair (t : pyval) : list (hkey * pyval) :=
  match t with
  | VDict r =>
      match assoc "id" r, assoc "name" r with
      | Some i, Some n => [(key_of i, n)]
      | _, _ => []
      end
  | _ => []
  end.

(** A tag record is a JSON object; its id, when it is kept, is hashable. *)
Definition tag_record_ok (t : pyval) : bool :=
  match t with
  | VDict r =>
      match assoc "id" r, assoc "name" r with
      | Some i, Some _ => hashable i
      | _, _ => true
      end
  | _ => false
  end.

Definition page_results (p : pyval) : list pyval :=
  match field "results" p with
  | VList l => l
  | _ => []
  end.

(** A page of tags: a non-empty JSON object whose [results], when there
    are, are a list of tag records. *)
Definition tags_page_ok (p : pyval) : bool :=
  match p with
  | VDict e =>
      truthy p &&
      match assoc "results" e with
      | None => true
      | Some (VList l) => forallb tag_record_ok l
      | Some _ => false
      end
  | _ => false
  end.

Definition page_pairs (p : pyval) : list (hkey * pyval) :=
  flat_map tag_pair (page_results p).

(** The tags of one page; a later record of the same id wins. *)
Definition page_tags (p : pyval) : gmap hkey pyval :=
  list_to_map (reverse (page_pairs p)).

(** The union of the pages read so far; a later page wins. *)
Definition add_page (m : gmap hkey pyval) (p : pyval) : gmap hkey pyval :=
  page_tags p ∪ m.

(** [pagination w url pages w']: from the world [w], following [next]
    from [url] fetches exactly [pages], and ends in [w'] because the link
    is falsy, or because the request of the link fails or brings no data. *)
Inductive pagination (w : world) (url : pyval) : list pyval -> world -> Prop :=
| pagination_end :
    truthy url = false ->
    pagination w url [] w
| pagination_fail (data : pyval) (w1 : world) :
    truthy url = true ->
    safe_request url w = (Ok data, w1) ->
    truthy data = false ->
    pagination w url [] w1
| pagination_page (p : pyval) (w1 : world) (pages : list pyval) (w2 : world) :
    truthy url = true ->
    safe_request url w = (Ok p, w1) ->
    tags_page_ok p = true ->
    pagination w1 (field "next" p) pages w2 ->
    pagination w url (p :: pages) w2.

(** *** Items of the report *)

(** [doc.get("tags", [])] of a JSON object. *)
Definition doc_tags_of (doc : pyval) : pyval :=
  match doc with
  | VDict e => match assoc "tags" e with Some v => v | None => VList [] end
  | _ => VList []
  end.

(** The request brought no data: it raised, or its JSON is falsy. *)
Definition no_data (r : http_result) : bool :=
  match r with
  | Response json => negb (truthy json)
  | RequestException _ => true
  end.

(** A tag id that is hashable, and whose name, if it has one, is a str. *)
Definition tag_resolvable (tag_map : gmap hkey pyval) (tid : pyval) : bool :=
  hashable tid &&
  match tag_map !! key_of tid with
  | Some (VStr _) | None => true
  | Some _ => false
  end.

(** The name of a tag, or [Tag-<id>] for an id without a name. *)
Definition tag_label (tag_map : gmap hkey pyval) (tid : pyval) : string :=
  match tag_map !! key_of tid with
  | Some v => str v
  | None => "Tag-" +:+ str tid
  end.

Definition tags_text (tag_map : gmap hkey pyval) (tids : list pyval) : string :=
  match tids with
  | [] => "None"
  | _ => join ", " (map (tag_label tag_map) tids)
  end.

Definition doc_bad_date : pyval :=
  VDict [("id", VInt 1); ("created_date", VStr "01.02.2020")].
Definition doc_stranger : pyval :=
  VDict [("id", VInt 2); ("created_date", VStr "2024-12-23");
         ("correspondent", VInt 99); ("tags", VList [VInt 1; VInt 7])].

(** *** The fetchers *)

(** The correspondent of a record that has both keys. *)
Definition correspondent_of (c : pyval) : list correspondent :=
  match c with
  | VDict r =>
      match assoc "id" r, assoc "name" r with
      | Some i, Some n => [mkcorr i n]
      | _, _ => []
      end
  | _ => []
  end.

(** The world after a request of [url] that was answered. *)
Definition answered (w : world) (url : string) : world :=
  mkworld (requests w ++ [VStr url]) (stdout w ++ ["Requesting URL: " +:+ url]).

(** *** The order of the report *)

(** Two ages are the same value. *)
Definition age_eqb (a b : age) : bool :=
  match a, b with
  | Days x, Days y => x =? y
  | NA, NA => true
  | _, _ => false
  end.

(** The documents of a list whose age is [a], in the order of the list. *)
Definition of_age (a : age) (docs : list pyval) : list pyval :=
  List.filter (fun d => age_eqb (fst (keyed d)) a) docs.

(** The date that the [created_date] of a document parses to. *)
Definition created_of (doc : pyval) : option date :=
  match field "created_date" doc with
  | VStr s => strptime_ymd s
  | _ => None
  end.

(** *** Requests and pages *)

(** The detail request of a document. *)
Definition detail_request (doc : pyval) : pyval :=
  VStr (MYURL +:+ "/api/documents/" +:+ str (field "id" doc) +:+ "/").

(** [reads w url pages w' url']: from the world [w], following [next]
    from [url] fetches the well-formed [pages] and arrives, in the world
    [w'], at the link [url']. *)
Inductive reads (w : world) (url : pyval) : list pyval -> world -> pyval -> Prop :=
| reads_nothing :
    reads w url [] w url
| reads_page (p : pyval) (w1 : world) (pages : list pyval) (w2 : world)
    (url2 : pyval) :
    truthy url = true ->
    safe_request url w = (Ok p, w1) ->
    tags_page_ok p = true ->
    reads w1 (field "next" p) pages w2 url2 ->
    reads w url (p :: pages) w2 url2.

(** *** Sample data for the whole script *)

Definition sample_searchpath : string := "?tags__id__all=1".
Definition sample_to : pyval :=
  VList [VStr "me@example.org"; VStr "you@example.org"].
Definition sample_mail_text (e : mail_error) : string :=
  match e with
  | NoRecipient => "list index out of range"
  | BadRecipient _ => "expected str, bytes or os.PathLike object"
  end.
Definition sample_mail (history : list (mail_call * Z)) (call : mail_call)
  : mail_result := Exited 0.
Definition failing_mail (history : list (mail_call * Z)) (call : mail_call)
  : mail_result := Exited 1.
Definition system0 : system := mksystem world0 [].

Definition down_http (history : list pyval) (url : pyval) : http_result :=
  RequestException "Connection refused".

Definition sample_correspondents_page : pyval :=
  VDict [("count", VInt 4);
         ("results",
          VList [VDict [("id", VInt 5); ("name", VStr "ACME")];
                 VDict [("id", VInt 6)];
                 VDict [("name", VStr "Nobody")];
                 VDict [("id", VInt 8); ("name", VStr "Bank"); ("slug", VStr "bank")]])].

(** The sample server, with correspondents and a list of documents
    [docs] as well. *)
Definition listing_http (docs : pyval) (history : list pyval) (url : pyval)
  : http_result :=
  match url with
  | VStr u =>
      if String.eqb u "http://paperless:8000/api/correspondents/?page_size=9999"
      then Response sample_correspondents_page
      else if String.eqb u "http://paperless:8000/api/documents/?tags__id__all=1"
      then Response (VDict [("count", VInt 2); ("results", docs)])
      else sample_http history url
  | _ => sample_http history url
  end.

(** A page of tags that names itself as the next page, and its server. *)
Definition cyclic_page : pyval :=
  VDict [("results", VList [VDict [("id", VInt 1); ("name", VStr "inbox")]]);
         ("next", VStr "http://paperless:8000/api/tags/")].
Definition cyclic_http (history : list pyval) (url : pyval) : http_result :=
  Response cyclic_page.

(** A server whose second page of tags is a JSON list. *)
Definition list_page_http (history : list pyval) (url : pyval) : http_result :=
  match url with
  | VStr u =>
      if String.eqb u "http://paperless:8000/api/tags/?page=2"
      then Response (VList [VDict [("id", VInt 3); ("name", VStr "todo")]])
      else sample_http history url
  | _ => sample_http history url
  end.

(** A server whose third page of tags renames the tag 1. *)
Definition sample_tags_page_3 : pyval :=
  VDict [("results", VList [VDict [("id", VInt 1); ("name", VStr "old")];
                            VDict [("id", VInt 1); ("name", VStr "new")]]);
         ("next", VNone)].
Definition renaming_http (history : list pyval) (url : pyval) : http_result :=
  match url with
  | VStr u =>
      if String.eqb u "http://paperless:8000/api/tags/?page=3"
      then Response sample_tags_page_3
      else sample_http history url
  | _ => sample_http history url
  end.

(** ** Properties *)

Set Default Proof Using "Type".

(** *** The calendar *)

Lemma days_before_year_succ (y : Z) :
  days_before_year (y + 1)
  = days_before_year y + 365 + (if is_leap y then 1 else 0).
Proof.
  unfold days_before_year, is_leap.
  replace (y + 1 - 1) with y by lia.
  destruct (y mod 4 =? 0) eqn:H4; destruct (y mod 100 =? 0) eqn:H100;
    destruct (y mod 400 =? 0) eqn:H400; simpl;
    rewrite ?Z.eqb_eq, ?Z.eqb_neq in H4, H100, H400;
    clear - H4 H100 H400; Z.div_mod_to_equations; lia.
Qed.

Lemma days_before_year_mono (y1 y2 : Z) :
  y1 <= y2 -> days_before_year y1 <= days_before_year y2.
Proof.
  unfold days_before_year. intros H.
  clear - H. Z.div_mod_to_equations. lia.
Qed.

Lemma days_before_month_succ (y m : Z) :
  1 <= m <= 11 ->
  days_before_month y (m + 1) = days_before_month y m + days_in_month y m.
Proof.
  intros H.
  assert (Hm : m = 1 \/ m = 2 \/ m = 3 \/ m = 4 \/ m = 5 \/ m = 6 \/ m = 7
               \/ m = 8 \/ m = 9 \/ m = 10 \/ m = 11) by lia.
  unfold days_before_month, days_in_month.
  destruct (is_leap y);
    repeat (destruct Hm as [-> | Hm]; [reflexivity |]); subst; reflexivity.
Qed.

Lemma days_in_month_pos (y m : Z) : 28 <= days_in_month y m <= 31.
Proof.
  unfold days_in_month.
  destruct (m =? 2); [destruct (is_leap y); lia |].
  destruct ((m =? 4) || (m =? 6) || (m =? 9) || (m =? 11)); lia.
Qed.

Lemma days_before_month_mono (y m1 m2 : Z) :
  1 <= m1 -> m1 <= m2 -> m2 <= 12 ->
  days_before_month y m1 <= days_before_month y m2.
Proof.
  intros H1 H12 H2.
  assert (Hn : exists n : nat, m2 = m1 + Z.of_nat n).
  { exists (Z.to_nat (m2 - m1)). lia. }
  destruct Hn as [n ->]. clear H12.
  induction n as [| n IH]; [replace (m1 + Z.of_nat 0) with m1; lia |].
  replace (m1 + Z.of_nat (S n)) with (m1 + Z.of_nat n + 1) by lia.
  rewrite days_before_month_succ by lia.
  pose proof (days_in_month_pos y (m1 + Z.of_nat n)). lia.
Qed.

Lemma days_before_december (y : Z) :
  days_before_month y 12 + days_in_month y 12
  = 365 + (if is_leap y then 1 else 0).
Proof. unfold days_before_month, days_in_month. destruct (is_leap y); reflexivity. Qed.

Lemma valid_date_bounds (d : date) :
  valid_date d = true ->
  1 <= year d <= 9999 /\ 1 <= month d <= 12 /\
  1 <= day d <= days_in_month (year d) (month d).
Proof.
  unfold valid_date. rewrite !andb_true_iff, !Z.leb_le. lia.
Qed.

(** The ordinal of a day lies within its year. *)
Lemma toordinal_in_year (d : date) :
  valid_date d = true ->
  days_before_year (year d) < toordinal d <= days_before_year (year d + 1).
Proof.
  intros Hv. apply valid_date_bounds in Hv. destruct Hv as (Hy & Hm & Hd).
  unfold toordinal. rewrite days_before_year_succ.
  pose proof (days_before_month_mono (year d) 1 (month d)) as Hlo.
  pose proof (days_before_month_mono (year d) (month d) 12) as Hhi.
  pose proof (days_before_december (year d)) as Hdec.
  assert (H1 : days_before_month (year d) 1 = 0).
  { unfold days_before_month. simpl. reflexivity. }
  assert (Hstep : days_before_month (year d) (month d) + days_in_month (year d) (month d)
                  <= days_before_month (year d) 12 + days_in_month (year d) 12).
  { destruct (Z.eq_dec (month d) 12) as [-> | Hne]; [lia |].
    rewrite <- days_before_month_succ by lia.
    pose proof (days_before_month_mono (year d) (month d + 1) 12).
    pose proof (days_in_month_pos (year d) 12). lia. }
  lia.
Qed.

(** A later date has a larger ordinal. *)
Lemma toordinal_lt (a b : date) :
  valid_date a = true -> valid_date b = true ->
  date_lt a b -> toordinal a < toordinal b.
Proof.
  intros Ha Hb Hlt.
  destruct Hlt as [Hy | [Hy [Hm | [Hm Hd]]]].
  - pose proof (toordinal_in_year a Ha). pose proof (toordinal_in_year b Hb).
    pose proof (days_before_year_mono (year a + 1) (year b)). lia.
  - apply valid_date_bounds in Ha, Hb.
    unfold toordinal. rewrite Hy.
    pose proof (days_before_month_mono (year b) (month a + 1) (month b)).
    rewrite days_before_month_succ in * by lia.
    rewrite Hy in *. lia.
  - unfold toordinal. rewrite Hy, Hm. lia.
Qed.

(** The ordinals count the days of the calendar one by one. *)
Lemma toordinal_tomorrow (d : date) :
  valid_date d = true -> toordinal (tomorrow d) = toordinal d + 1.
Proof.
  intros Hv. apply valid_date_bounds in Hv. destruct Hv as (Hy & Hm & Hd).
  unfold tomorrow, toordinal.
  destruct (day d <? days_in_month (year d) (month d)) eqn:Hlast; simpl; [lia |].
  apply Z.ltb_ge in Hlast.
  destruct (month d <? 12) eqn:Hdec; simpl.
  - apply Z.ltb_lt in Hdec. rewrite days_before_month_succ by lia. lia.
  - apply Z.ltb_ge in Hdec. assert (Hm12 : month d = 12) by lia.
    rewrite days_before_year_succ. rewrite Hm12 in *.
    pose proof (days_before_december (year d)) as Hdecember.
    assert (H1 : days_before_month (year d + 1) 1 = 0) by reflexivity.
    lia.
Qed.

Lemma toordinal_first_day : toordinal (mkdate 1 1 1) = 1.
Proof. reflexivity. Qed.

(** *** Parsing dates *)

Lemma digit_val_digit_char (k : Z) :
  0 <= k <= 9 -> digit_val (digit_char k) = Some k.
Proof.
  intros H.
  assert (Hk : k = 0 \/ k = 1 \/ k = 2 \/ k = 3 \/ k = 4 \/ k = 5 \/ k = 6
               \/ k = 7 \/ k = 8 \/ k = 9) by lia.
  repeat (destruct Hk as [-> | Hk]; [reflexivity |]). subst. reflexivity.
Qed.

Lemma match_year_digits (y : Z) (r : list ascii) :
  0 <= y <= 9999 ->
  match_year (digit_char (y / 1000 mod 10) :: digit_char (y / 100 mod 10)
                :: digit_char (y / 10 mod 10) :: digit_char (y mod 10) :: r)
  = Some (y, r).
Proof.
  intros H. unfold match_year.
  rewrite !digit_val_digit_char by (clear - H; Z.div_mod_to_equations; lia).
  do 2 f_equal. clear - H. Z.div_mod_to_equations. lia.
Qed.

(** The month and the day of a valid date, written with two digits, are
    read back by the pattern. *)
Lemma match_rest_digits (y m d : Z) :
  1 <= m <= 12 -> 1 <= d <= 31 ->
  match_rest y (match_month
                  [digit_char (m / 10); digit_char (m mod 10); "-"%char;
                   digit_char (d / 10); digit_char (d mod 10)])
  = Some (mkdate y m d, []).
Proof.
  intros Hm Hd.
  assert (Hm' : m = 1 \/ m = 2 \/ m = 3 \/ m = 4 \/ m = 5 \/ m = 6 \/ m = 7
                \/ m = 8 \/ m = 9 \/ m = 10 \/ m = 11 \/ m = 12) by lia.
  assert (Hd' : exists k : nat, d = Z.of_nat k /\ (k <= 31)%nat).
  { exists (Z.to_nat d). lia. }
  destruct Hd' as (k & -> & Hk).
  do 32 (destruct k as [| k]; [try lia;
    repeat (destruct Hm' as [-> | Hm']; [reflexivity |]); subst; reflexivity |]).
  lia.
Qed.

Lemma strptime_isoformat (d : date) :
  valid_date d = true -> strptime_ymd (isoformat d) = Some d.
Proof.
  intros Hv. pose proof (valid_date_bounds d Hv) as (Hy & Hm & Hd).
  pose proof (days_in_month_pos (year d) (month d)).
  unfold strptime_ymd, regex_match, isoformat, chars.
  rewrite list_ascii_of_string_of_list_ascii.
  rewrite match_year_digits by lia. simpl expect_dash. cbv iota beta.
  rewrite match_rest_digits by lia.
  destruct d as [y m dd]. simpl in *. unfold valid_date in Hv. simpl in Hv.
  unfold valid_date. simpl. rewrite Hv. reflexivity.
Qed.

(** *** calculate_age *)

Lemma strptime_empty : strptime_ymd "" = None.
Proof. reflexivity. Qed.

Lemma truthy_str (s : string) : truthy (VStr s) = false -> s = "".
Proof.
  simpl. intros H. apply negb_false_iff in H. by apply String.eqb_eq in H.
Qed.

Lemma calculate_age_str (s : string) :
  calculate_age today (VStr s) = Ok (age_of_string s).
Proof.
  unfold calculate_age, age_of_string.
  destruct (truthy (VStr s)) eqn:Ht; simpl.
  - destruct (strptime_ymd s); reflexivity.
  - apply truthy_str in Ht. subst. reflexivity.
Qed.

Lemma calculate_age_falsy (v : pyval) :
  truthy v = false -> calculate_age today v = Ok NA.
Proof. unfold calculate_age. intros ->. reflexivity. Qed.

(** C4: [calculate_age] returns ["N/A"] for [None], for the empty string and
    for every string that [strptime] refuses, and never raises on a string;
    on a string that parses it returns the difference of the ordinals of
    today and of the parsed date.  A valid date written as [YYYY-MM-DD]
    parses to itself, the age of today is 0, and the age of a date is one
    day more than the age of the day after it: the age is the number of
    days elapsed. *)
Theorem calculate_age_cases (s : string) (d : date) :
  valid_date today = true ->
  valid_date d = true ->
  valid_date (tomorrow d) = true ->
  calculate_age today VNone = Ok NA /\
  calculate_age today (VStr "") = Ok NA /\
  calculate_age today (VStr s)
  = Ok (match strptime_ymd s with
        | Some created => Days (toordinal today - toordinal created)
        | None => NA
        end) /\
  calculate_age today (VStr (isoformat d))
  = Ok (Days (toordinal today - toordinal d)) /\
  calculate_age today (VStr (isoformat today)) = Ok (Days 0) /\
  calculate_age today (VStr (isoformat (tomorrow d)))
  = Ok (Days (toordinal today - toordinal d - 1)).
Proof.
  intros Ht Hd Hd'. repeat split.
  - apply calculate_age_str.
  - rewrite calculate_age_str. unfold age_of_string.
    by rewrite strptime_isoformat.
  - rewrite calculate_age_str. unfold age_of_string.
    rewrite strptime_isoformat by done. do 2 f_equal. lia.
  - rewrite calculate_age_str. unfold age_of_string.
    rewrite strptime_isoformat by done.
    rewrite (toordinal_tomorrow d Hd). do 2 f_equal. lia.
Qed.

(** *** build_subject_line *)

Lemma doc_age_datable (doc : pyval) :
  datable doc = true -> doc_age doc = Ok (age_of (field "created_date" doc)).
Proof.
  unfold datable, doc_age. destruct doc; try discriminate. simpl.
  destruct (assoc "created_date" d) as [v |]; [| reflexivity].
  destruct v; intros H; try (apply calculate_age_falsy; by apply negb_true_iff).
  apply calculate_age_str.
Qed.

Lemma over_30_datable (doc : pyval) :
  datable doc = true -> over_30 doc = Ok (aged_over 30 doc).
Proof.
  intros H. unfold over_30, aged_over. rewrite (doc_age_datable doc H). simpl.
  destruct (age_of (field "created_date" doc)); reflexivity.
Qed.

Lemma omap_pure {A B} (f : A -> outcome B) (g : A -> B) (l : list A) :
  Forall (fun x => f x = Ok (g x)) l -> omap f l = Ok (map g l).
Proof.
  induction 1 as [| x l Hx _ IH]; simpl; [done |]. by rewrite Hx, IH.
Qed.

Lemma filter_map_length {A} (f : A -> bool) (l : list A) :
  length (List.filter (fun b : bool => b) (map f l)) = length (List.filter f l).
Proof.
  induction l as [| x l IH]; simpl; [done |]. destruct (f x); simpl; lia.
Qed.

Lemma build_subject_line_datable (docs : list pyval) :
  forallb datable docs = true ->
  build_subject_line docs
  = Ok (subject (Z.of_nat (length docs)) (count_over 30 docs)).
Proof.
  intros H. unfold build_subject_line, count_over.
  rewrite (omap_pure over_30 (aged_over 30)).
  - simpl. by rewrite filter_map_length.
  - apply Forall_forall. intros doc Hin. apply over_30_datable.
    rewrite forallb_forall in H. apply H. by apply list_elem_of_In.
Qed.



Lemma strptime_valid (s : string) (d : date) :
  strptime_ymd s = Some d -> valid_date d = true.
Proof.
  unfold strptime_ymd. destruct (regex_match (chars s)) as [[c r] |]; [| done].
  destruct r; [| done]. destruct (valid_date c) eqn:Hv; [| done].
  intros [= <-]. exact Hv.
Qed.

(** C10: a date that parses and lies after today has a negative int age,
    not ["N/A"]; a document of that date is not counted over 30 in the
    subject line, and its age is rendered plain. *)
Theorem future_date_negative_age (s : string) (created : date) :
  valid_date today = true ->
  strptime_ymd s = Some created ->
  date_lt today created ->
  exists n : Z,
    calculate_age today (VStr s) = Ok (Days n) /\ n < 0 /\
    format_age (Days n) = str_int n /\
    (forall doc, py_get doc "created_date" VNone = Ok (VStr s) ->
                 over_30 doc = Ok false /\
                 build_subject_line [doc] = Ok (subject 1 0)).
Proof.
  intros Ht Hs Hlt.
  pose proof (toordinal_lt today created Ht (strptime_valid s created Hs) Hlt) as Hord.
  exists (toordinal today - toordinal created).
  assert (Hage : calculate_age today (VStr s)
                 = Ok (Days (toordinal today - toordinal created))).
  { rewrite calculate_age_str. unfold age_of_string. by rewrite Hs. }
  assert (Hplain : forall k, k < 0 -> (31 <? k) = false /\ (30 <? k) = false).
  { intros k Hk. split; apply Z.ltb_ge; lia. }
  destruct (Hplain (toordinal today - toordinal created)) as [H31 H30]; [lia |].
  split; [exact Hage |]. split; [lia |]. split.
  - simpl. by rewrite H31.
  - intros doc Hdoc.
    assert (Hover : over_30 doc = Ok false).
    { unfold over_30, doc_age. rewrite Hdoc. simpl. rewrite Hage. simpl.
      by rewrite H30. }
    split; [exact Hover |].
    unfold build_subject_line. simpl. rewrite Hover. reflexivity.
Qed.

(** *** build_html_body: the correspondent dictionary *)

Lemma to_key_hashable (v : pyval) :
  hashable v = true -> to_key v = Ok (key_of v).
Proof. destruct v; simpl; done. Qed.

Lemma build_corr_map_from (correspondents : list correspondent) (m : gmap hkey pyval) :
  forallb (fun c => hashable (corr_id c)) correspondents = true ->
  ofold (fun m c => map_set m (corr_id c) (corr_name c)) correspondents m
  = Ok (fold_left (fun m c => <[key_of (corr_id c) := corr_name c]> m) correspondents m).
Proof.
  revert m. induction correspondents as [| c cs IH]; intros m H; simpl; [done |].
  simpl in H. apply andb_true_iff in H as [Hc Hcs].
  unfold map_set at 1. rewrite (to_key_hashable _ Hc). simpl. by apply IH.
Qed.

Lemma build_corr_map_hashable (correspondents : list correspondent) :
  forallb (fun c => hashable (corr_id c)) correspondents = true ->
  build_corr_map correspondents = Ok (corr_map_of correspondents).
Proof. apply build_corr_map_from. Qed.



(** *** Computations only add to the world *)














(** *** The rendering loop *)

(** A document without a truthy id: nothing is requested, printed or
    appended. *)
Lemma process_doc_no_id (corr_map tag_map : gmap hkey pyval)
  (e : list (string * pyval)) (w : world) :
  truthy (field "id" (VDict e)) = false ->
  process_doc corr_map tag_map (VDict e) w = (Ok None, w).
Proof.
  intros H. unfold process_doc, bind, lift. simpl in *.
  by rewrite H.
Qed.





Lemma render_docs_app (corr_map tag_map : gmap hkey pyval)
  (l1 l2 : list pyval) (w : world) :
  render_docs corr_map tag_map (l1 ++ l2) w
  = (lines1 <- render_docs corr_map tag_map l1 ;;
     lines2 <- render_docs corr_map tag_map l2 ;;
     ret (lines1 ++ lines2)%list)%io w.
Proof.
  revert w. induction l1 as [| doc l1 IH]; intros w; unfold bind; simpl.
  - destruct (render_docs corr_map tag_map l2 w) as [[? | ?] ?]; reflexivity.
  - destruct (process_doc corr_map tag_map doc w) as [[[line |] | e] w1].
    + unfold bind. rewrite IH. unfold bind, ret.
      destruct (render_docs corr_map tag_map l1 w1) as [[a | ?] w2]; [| done].
      destruct (render_docs corr_map tag_map l2 w2) as [[? | ?] ?]; reflexivity.
    + rewrite IH. reflexivity.
    + unfold bind. destruct (report_failure doc e w1) as [[? | ?] w2]; [| done].
      rewrite IH. reflexivity.
Qed.



(** *** The sort *)

Lemma age_lt_same_type (a b : age) (r : bool) :
  age_lt a b = Ok r -> same_type a b = true.
Proof. destruct a, b; simpl; done. Qed.

Lemma age_lt_mixed (a b : age) :
  same_type a b = false -> age_lt a b = Raise (TypeError (Incomparable a b)).
Proof. destruct a, b; simpl; done. Qed.

Lemma age_lt_asym (a b : age) :
  age_lt a b = Ok true -> age_lt b a = Ok false.
Proof.
  destruct a, b; simpl; try done. intros [= H]. f_equal.
  apply Z.ltb_lt in H. apply Z.ltb_ge. lia.
Qed.

Lemma age_lt_false_trans (a b c : age) :
  age_lt a b = Ok false -> age_lt b c = Ok false -> age_lt a c = Ok false.
Proof.
  destruct a, b, c; simpl; try done. intros [= H1] [= H2]. f_equal.
  apply Z.ltb_ge in H1, H2. apply Z.ltb_ge. lia.
Qed.

Lemma insert_desc_perm (x : age * pyval) (l s : list (age * pyval)) :
  insert_desc x l = Ok s -> s ≡ₚ x :: l.
Proof.
  revert s. induction l as [| y l IH]; intros s; simpl.
  - by intros [= <-].
  - destruct (age_lt (fst x) (fst y)) as [[|] | e]; simpl; [| by intros [= <-] | done].
    destruct (insert_desc x l) as [r | e]; simpl; [| done].
    intros [= <-]. rewrite (IH r eq_refl). apply Permutation_swap.
Qed.

Lemma sort_desc_perm (l s : list (age * pyval)) :
  sort_desc l = Ok s -> s ≡ₚ l.
Proof.
  revert s. induction l as [| x l IH]; intros s; simpl.
  - by intros [= <-].
  - destruct (sort_desc l) as [r | e]; simpl; [| done].
    intros H. rewrite (insert_desc_perm _ _ _ H). by rewrite (IH r eq_refl).
Qed.

Lemma insert_desc_descending (x : age * pyval) (l s : list (age * pyval)) :
  descending l -> insert_desc x l = Ok s -> descending s.
Proof.
  revert s. induction l as [| y l IH]; intros s Hd; simpl.
  - intros [= <-]. simpl. done.
  - destruct (age_lt (fst x) (fst y)) as [[|] | e] eqn:Hxy; simpl; [| | done].
    + destruct (insert_desc x l) as [r | e] eqn:Hr; simpl; [| done].
      intros [= <-]. destruct Hd as [Hy Hl].
      specialize (IH r Hl eq_refl). split; [| exact IH].
      destruct l as [| z l]; simpl in Hr.
      * injection Hr as <-. by apply age_lt_asym.
      * destruct (age_lt (fst x) (fst z)) as [[|] | ?]; simpl in Hr; [| | done].
        -- destruct (insert_desc x l); simpl in Hr; [| done]. by injection Hr as <-.
        -- injection Hr as <-. by apply age_lt_asym.
    + intros [= <-]. split; [exact Hxy | exact Hd].
Qed.

Lemma sort_desc_descending (l s : list (age * pyval)) :
  sort_desc l = Ok s -> descending s.
Proof.
  revert s. induction l as [| x l IH]; intros s; simpl.
  - by intros [= <-].
  - destruct (sort_desc l) as [r | e]; simpl; [| done].
    apply insert_desc_descending. by apply IH.
Qed.

(** Taking an item out of a sorted list leaves the place of a new item
    among the others unchanged. *)
Lemma insert_desc_without (a x : age * pyval) (s1 s2 s : list (age * pyval)) :
  descending (s1 ++ x :: s2) ->
  insert_desc a (s1 ++ x :: s2) = Ok s ->
  exists t1 t2, s = (t1 ++ x :: t2)%list /\ insert_desc a (s1 ++ s2) = Ok (t1 ++ t2)%list.
Proof.
  revert s. induction s1 as [| z s1 IH]; intros s Hd; simpl.
  - destruct (age_lt (fst a) (fst x)) as [[|] | e] eqn:Hax; simpl; [| | done].
    + destruct (insert_desc a s2) as [r | e]; simpl; [| done].
      intros [= <-]. by exists [], r.
    + intros [= <-]. exists [a], s2. split; [done |].
      destruct s2 as [| y s2]; simpl; [done |].
      destruct Hd as [Hxy _].
      by rewrite (age_lt_false_trans _ _ _ Hax Hxy).
  - destruct (age_lt (fst a) (fst z)) as [[|] | e] eqn:Haz; simpl; [| | done].
    + destruct (insert_desc a (s1 ++ x :: s2)) as [r | e] eqn:Hr; simpl; [| done].
      intros [= <-]. destruct Hd as [_ Hd].
      destruct (IH r Hd eq_refl) as (t1 & t2 & -> & Ht).
      exists (z :: t1), t2. split; [done |]. by rewrite Ht.
    + intros [= <-]. by exists (a :: z :: s1), s2.
Qed.

Lemma sort_desc_without (l1 l2 : list (age * pyval)) (x : age * pyval)
  (s : list (age * pyval)) :
  sort_desc (l1 ++ x :: l2) = Ok s ->
  exists s1 s2, s = (s1 ++ x :: s2)%list /\ sort_desc (l1 ++ l2) = Ok (s1 ++ s2)%list.
Proof.
  revert s. induction l1 as [| a l1 IH]; intros s; simpl.
  - destruct (sort_desc l2) as [r | e]; simpl; [| done].
    revert s. induction r as [| y r IHr]; intros s; simpl.
    + intros [= <-]. by exists [], [].
    + destruct (age_lt (fst x) (fst y)) as [[|] | e]; simpl; [| | done].
      * destruct (insert_desc x r) as [r' | e]; simpl; [| done].
        intros [= <-]. destruct (IHr r' eq_refl) as (s1 & s2 & -> & [= ->]).
        by exists (y :: s1), s2.
      * intros [= <-]. by exists [], (y :: r).
  - destruct (sort_desc (l1 ++ x :: l2)) as [r | e] eqn:Hr; simpl; [| done].
    destruct (IH r eq_refl) as (s1 & s2 & -> & Hs). rewrite Hs. simpl.
    apply insert_desc_without. by apply (sort_desc_descending (l1 ++ x :: l2)).
Qed.

(** The sort completes exactly on keys of one type. *)
Lemma insert_desc_same_type (x : age * pyval) (l s : list (age * pyval)) :
  insert_desc x l = Ok s ->
  match l with [] => True | y :: _ => same_type (fst x) (fst y) = true end.
Proof.
  destruct l as [| y l]; [done |]. simpl.
  destruct (age_lt (fst x) (fst y)) as [r | e] eqn:H; [| done].
  intros _. by apply (age_lt_same_type _ _ r).
Qed.

Lemma same_type_trans (a b c : age) :
  same_type a b = true -> same_type b c = true -> same_type a c = true.
Proof. destruct a, b, c; done. Qed.

Lemma same_type_sym (a b : age) : same_type a b = same_type b a.
Proof. destruct a, b; done. Qed.

Lemma sort_desc_same_type (l s : list (age * pyval)) :
  sort_desc l = Ok s ->
  forall x y, x ∈ l -> y ∈ l -> same_type (fst x) (fst y) = true.
Proof.
  revert s. induction l as [| a l IH]; intros s; simpl.
  - intros _ x y Hx. by apply elem_of_nil in Hx.
  - destruct (sort_desc l) as [r | e] eqn:Hr; simpl; [| done].
    intros Hins. specialize (IH r eq_refl).
    assert (Ha : forall y, y ∈ l -> same_type (fst a) (fst y) = true).
    { intros y Hy. apply insert_desc_same_type in Hins.
      destruct r as [| z r].
      - apply sort_desc_perm in Hr. rewrite <- Hr in Hy. by apply elem_of_nil in Hy.
      - assert (Hz : z ∈ l).
        { apply sort_desc_perm in Hr. rewrite <- Hr. apply elem_of_cons. by left. }
        eapply same_type_trans; [exact Hins | by apply IH]. }
    intros x y Hx Hy. apply elem_of_cons in Hx, Hy.
    destruct Hx as [-> | Hx], Hy as [-> | Hy].
    + by destruct (fst a).
    + by apply Ha.
    + rewrite same_type_sym. by apply Ha.
    + by apply IH.
Qed.


Lemma doc_age_inv (doc : pyval) (a : age) :
  doc_age doc = Ok a ->
  datable doc = true /\ a = age_of (field "created_date" doc).
Proof.
  unfold doc_age, datable. destruct doc; try done. simpl.
  set (c := match assoc "created_date" d with Some v => v | None => VNone end).
  clearbody c.
  destruct c as [| [|] | n | s | [| ? ?] | [| ? ?]];
    try done; try (by intros [= <-]).
  - unfold calculate_age. simpl. destruct (n =? 0); simpl; [by intros [= <-] | done].
  - rewrite calculate_age_str. by intros [= <-].
Qed.

Lemma omap_keyed (docs : list pyval) (l : list (age * pyval)) :
  omap (fun d => (k <- doc_age d ;; Ok (k, d))%outcome) docs = Ok l ->
  forallb datable docs = true /\ l = map keyed docs.
Proof.
  revert l. induction docs as [| d docs IH]; intros l; simpl.
  - by intros [= <-].
  - destruct (doc_age d) as [a | e] eqn:Ha; simpl; [| done].
    destruct (omap _ docs) as [r | e]; simpl; [| done].
    intros [= <-]. destruct (IH r eq_refl) as [Hd ->].
    destruct (doc_age_inv d a Ha) as [Hdd ->]. by rewrite Hdd, Hd.
Qed.

Lemma omap_keyed_datable (docs : list pyval) :
  forallb datable docs = true ->
  omap (fun d => (k <- doc_age d ;; Ok (k, d))%outcome) docs = Ok (map keyed docs).
Proof.
  induction docs as [| d docs IH]; simpl; [done |].
  intros H. apply andb_true_iff in H as [Hd Hr].
  rewrite (doc_age_datable d Hd). simpl. by rewrite (IH Hr).
Qed.

Lemma map_snd_keyed (docs : list pyval) : map snd (map keyed docs) = docs.
Proof. induction docs as [| d docs IH]; simpl; [done |]. by rewrite IH. Qed.

Lemma sorted_docs_inv (docs sd : list pyval) :
  sorted_docs docs = Ok sd ->
  forallb datable docs = true /\
  exists s, sort_desc (map keyed docs) = Ok s /\ sd = map snd s.
Proof.
  unfold sorted_docs.
  destruct (omap _ docs) as [l | e] eqn:Hl; simpl; [| done].
  destruct (omap_keyed docs l Hl) as [Hd ->].
  destruct (sort_desc (map keyed docs)) as [s | e]; simpl; [| done].
  intros [= <-]. split; [exact Hd |]. by exists s.
Qed.

Lemma sorted_docs_perm (docs sd : list pyval) :
  sorted_docs docs = Ok sd -> sd ≡ₚ docs.
Proof.
  intros H. destruct (sorted_docs_inv docs sd H) as (_ & s & Hs & ->).
  rewrite (sort_desc_perm _ _ Hs). by rewrite map_snd_keyed.
Qed.



Lemma sorted_docs_descending (docs sd : list pyval) :
  sorted_docs docs = Ok sd -> descending (map keyed sd).
Proof.
  intros H. destruct (sorted_docs_inv docs sd H) as (_ & s & Hs & ->).
  assert (Hk : map keyed (map snd s) = s).
  { assert (Hin : forall p, p ∈ s -> p = keyed (snd p)).
    { intros p Hp. rewrite (sort_desc_perm _ _ Hs) in Hp.
      apply list_elem_of_fmap in Hp as (d & -> & _). reflexivity. }
    clear Hs H. induction s as [| p s IH]; simpl; [done |].
    rewrite <- (Hin p) by (apply elem_of_cons; by left).
    rewrite IH; [done |]. intros q Hq. apply Hin. apply elem_of_cons. by right. }
  rewrite Hk. by apply (sort_desc_descending (map keyed docs)).
Qed.

Lemma sorted_docs_without (pre post : list pyval) (doc : pyval) (sd : list pyval) :
  sorted_docs (pre ++ doc :: post) = Ok sd ->
  exists s1 s2, sd = (s1 ++ doc :: s2)%list /\
                sorted_docs (pre ++ post) = Ok (s1 ++ s2)%list.
Proof.
  intros H. destruct (sorted_docs_inv _ _ H) as (Hd & s & Hs & ->).
  rewrite map_app in Hs. simpl in Hs.
  destruct (sort_desc_without _ _ _ _ Hs) as (s1 & s2 & -> & Hs').
  exists (map snd s1), (map snd s2). split.
  - by rewrite map_app.
  - unfold sorted_docs. rewrite omap_keyed_datable.
    + simpl. rewrite map_app, Hs'. simpl. by rewrite map_app.
    + rewrite forallb_app in Hd. simpl in Hd. rewrite forallb_app.
      apply andb_true_iff in Hd as [H1 [_ H2]%andb_true_iff]. by rewrite H1, H2.
Qed.

(** A list that mixes an int age and an ["N/A"] age is not sorted: the
    comparison of the two raises, outside every [try]. *)
Lemma sorted_docs_mixed (docs : list pyval) (d1 d2 : pyval) (n : Z) :
  d1 ∈ docs -> d2 ∈ docs ->
  doc_age d1 = Ok (Days n) -> doc_age d2 = Ok NA ->
  exists e, sorted_docs docs = Raise e.
Proof.
  intros H1 H2 Ha1 Ha2.
  destruct (sorted_docs docs) as [sd | e] eqn:Hsd; [| by exists e].
  destruct (sorted_docs_inv docs sd Hsd) as (_ & s & Hs & _).
  destruct (doc_age_inv d1 _ Ha1) as [_ Hk1].
  destruct (doc_age_inv d2 _ Ha2) as [_ Hk2].
  assert (Hsame : same_type (Days n) NA = true); [| done].
  rewrite Hk1, Hk2.
  apply (sort_desc_same_type _ _ Hs (keyed d1) (keyed d2));
    apply list_elem_of_fmap; eauto.
Qed.


Lemma age_lt_total (a b : age) :
  same_type a b = true -> exists r, age_lt a b = Ok r.
Proof. destruct a, b; simpl; try done; eauto. Qed.

Lemma insert_desc_total (x : age * pyval) (l : list (age * pyval)) :
  (forall y, y ∈ l -> same_type (fst x) (fst y) = true) ->
  exists s, insert_desc x l = Ok s.
Proof.
  induction l as [| y l IH]; intros H; simpl; [eauto |].
  destruct (age_lt_total (fst x) (fst y)) as [r ->].
  { apply H, list_elem_of_here. }
  simpl. destruct r; [| eauto].
  destruct IH as [s ->]; [| simpl; eauto].
  intros z Hz. by apply H, list_elem_of_further.
Qed.

Lemma sort_desc_total (l : list (age * pyval)) :
  (forall x y, x ∈ l -> y ∈ l -> same_type (fst x) (fst y) = true) ->
  exists s, sort_desc l = Ok s.
Proof.
  induction l as [| x l IH]; intros H; simpl; [eauto |].
  destruct IH as [s Hs].
  { intros a b Ha Hb. apply H; by apply list_elem_of_further. }
  rewrite Hs. simpl. apply insert_desc_total.
  intros y Hy. rewrite (sort_desc_perm _ _ Hs) in Hy.
  apply H; [apply list_elem_of_here | by apply list_elem_of_further].
Qed.

(** On documents whose ages are all ints, or all ["N/A"], the sort
    completes: it permutes the documents into descending ages. *)
Lemma sorted_docs_one_type (docs : list pyval) :
  forallb datable docs = true ->
  (forall d1 d2, d1 ∈ docs -> d2 ∈ docs ->
                 same_type (fst (keyed d1)) (fst (keyed d2)) = true) ->
  exists sd, sorted_docs docs = Ok sd /\ sd ≡ₚ docs /\ descending (map keyed sd).
Proof.
  intros Hd Hsame.
  destruct (sort_desc_total (map keyed docs)) as [s Hs].
  { intros x y Hx Hy.
    apply list_elem_of_fmap in Hx as (d1 & -> & H1).
    apply list_elem_of_fmap in Hy as (d2 & -> & H2). by apply Hsame. }
  assert (Hsd : sorted_docs docs = Ok (map snd s)).
  { unfold sorted_docs. rewrite (omap_keyed_datable docs Hd). simpl.
    by rewrite Hs. }
  exists (map snd s). split; [exact Hsd |].
  split; [by apply sorted_docs_perm | by apply (sorted_docs_descending docs)].
Qed.

Lemma omap_raise {A B} (f : A -> outcome B) (l : list A) (x : A) (e : exn) :
  x ∈ l -> f x = Raise e -> exists e', omap f l = Raise e'.
Proof.
  induction l as [| y l IH]; intros Hin Hx; [by apply elem_of_nil in Hin |].
  simpl. apply elem_of_cons in Hin as [<- | Hin].
  - rewrite Hx. simpl. eauto.
  - destruct (f y); simpl; [| eauto].
    destruct (IH Hin Hx) as [e' ->]. simpl. eauto.
Qed.

(** The subject line is built exactly for the documents on which
    [calculate_age] does not raise. *)
Lemma build_subject_line_raises (docs : list pyval) :
  forallb datable docs = false -> exists e, build_subject_line docs = Raise e.
Proof.
  intros H.
  assert (Hex : exists d, d ∈ docs /\ datable d = false).
  { induction docs as [| d docs IH]; [done |]. simpl in H.
    destruct (datable d) eqn:Hd.
    - destruct (IH H) as (d' & Hin & Hd'). exists d'.
      split; [by apply list_elem_of_further | done].
    - exists d. split; [apply list_elem_of_here | done]. }
  destruct Hex as (d & Hin & Hd).
  assert (Hraise : exists e, over_30 d = Raise e).
  { unfold over_30. destruct (doc_age d) as [a | e] eqn:Ha; simpl; [| eauto].
    destruct (doc_age_inv d a Ha) as [Hd' _]. congruence. }
  destruct Hraise as [e He].
  destruct (omap_raise over_30 docs d e Hin He) as [e' He'].
  exists e'. unfold build_subject_line. by rewrite He'.
Qed.

Lemma render_docs_skip (corr_map tag_map : gmap hkey pyval)
  (l1 l2 : list pyval) (e : list (string * pyval)) (w : world) :
  truthy (field "id" (VDict e)) = false ->
  render_docs corr_map tag_map (l1 ++ VDict e :: l2) w
  = render_docs corr_map tag_map (l1 ++ l2) w.
Proof.
  intros H. rewrite !render_docs_app. unfold bind.
  destruct (render_docs corr_map tag_map l1 w) as [[a | x] w1]; [| done].
  simpl. by rewrite (process_doc_no_id _ _ _ _ H).
Qed.

(** C1 (the code against the claim): a document list that mixes an int age
    and an ["N/A"] age is not rendered at all; the sort raises a
    [TypeError] before the loop, outside its [try], and [build_html_body]
    raises without a request sent or a line printed. *)
Theorem mixed_ages_abort_report (docs : list pyval)
  (correspondents : list correspondent) (tag_map : gmap hkey pyval)
  (w : world) (d1 d2 : pyval) (n : Z) :
  d1 ∈ docs -> d2 ∈ docs ->
  doc_age d1 = Ok (Days n) -> doc_age d2 = Ok NA ->
  exists e, build_html_body docs correspondents tag_map w = (Raise e, w).
Proof.
  intros H1 H2 Ha1 Ha2.
  destruct (sorted_docs_mixed docs d1 d2 n H1 H2 Ha1 Ha2) as [e He].
  unfold build_html_body, build_html_items, bind, lift.
  destruct (build_corr_map correspondents) as [cm | e']; [| by exists e'].
  rewrite He. by exists e.
Qed.


(** C9: a document whose id is missing or falsy is skipped by the loop
    without a request, a printed line or an item, so that the report is the
    one of the list without it; the subject line counts it in the total,
    and over 30 days when its age is. *)
Theorem document_without_id_skipped_but_counted
  (correspondents : list correspondent) (corr_map tag_map : gmap hkey pyval)
  (pre post : list pyval) (e : list (string * pyval)) (w : world) :
  truthy (field "id" (VDict e)) = false ->
  forallb datable (pre ++ VDict e :: post) = true ->
  process_doc corr_map tag_map (VDict e) w = (Ok None, w) /\
  render_docs corr_map tag_map (pre ++ VDict e :: post) w
  = render_docs corr_map tag_map (pre ++ post) w /\
  (forall sd, sorted_docs (pre ++ VDict e :: post) = Ok sd ->
              build_html_body (pre ++ VDict e :: post) correspondents tag_map w
              = build_html_body (pre ++ post) correspondents tag_map w) /\
  build_subject_line (pre ++ VDict e :: post)
  = Ok (subject (Z.of_nat (length (pre ++ post)) + 1)
          (count_over 30 (pre ++ post)
           + (if aged_over 30 (VDict e) then 1 else 0))).
Proof.
  intros Hid Hd.
  split; [by apply process_doc_no_id |].
  split; [by apply render_docs_skip |]. split.
  - intros sd Hsd.
    destruct (sorted_docs_without _ _ _ _ Hsd) as (s1 & s2 & -> & Hsd').
    unfold build_html_body, build_html_items, bind, lift.
    destruct (build_corr_map correspondents) as [cm | x]; [| done].
    rewrite Hsd, Hsd'. by rewrite (render_docs_skip _ _ _ _ _ _ Hid).
  - rewrite (build_subject_line_datable _ Hd). do 2 f_equal.
    + rewrite !length_app. simpl. lia.
    + unfold count_over. rewrite !List.filter_app. simpl.
      destruct (aged_over 30 (VDict e)); rewrite !length_app; simpl; lia.
Qed.


(** *** get_tags_map *)

Lemma fold_insert_union (pairs : list (hkey * pyval)) (m : gmap hkey pyval) :
  fold_left (fun m kv => <[kv.1 := kv.2]> m) pairs m
  = list_to_map (reverse pairs) ∪ m.
Proof.
  revert m. induction pairs as [| [k v] pairs IH]; intros m; simpl.
  - by rewrite (left_id_L ∅ (∪)).
  - rewrite IH, reverse_cons, list_to_map_app. simpl.
    rewrite <- (assoc_L (∪)). f_equal.
    by rewrite insert_empty, <- insert_union_singleton_l.
Qed.

Lemma collect_tag_ok (m : gmap hkey pyval) (t : pyval) :
  tag_record_ok t = true ->
  collect_tag m t = Ok (fold_left (fun m kv => <[kv.1 := kv.2]> m) (tag_pair t) m).
Proof.
  destruct t as [| | | | | r]; try done. unfold collect_tag. simpl.
  destruct (assoc "id" r) as [i |]; simpl; [| done].
  destruct (assoc "name" r) as [n |]; simpl; [| done].
  intros Hi. unfold map_set. by rewrite (to_key_hashable i Hi).
Qed.

Lemma ofold_collect_tag (items : list pyval) (m : gmap hkey pyval) :
  forallb tag_record_ok items = true ->
  ofold collect_tag items m
  = Ok (fold_left (fun m kv => <[kv.1 := kv.2]> m) (flat_map tag_pair items) m).
Proof.
  revert m. induction items as [| t items IH]; intros m H; simpl; [done |].
  simpl in H. apply andb_true_iff in H as [Ht Hr].
  rewrite (collect_tag_ok m t Ht). simpl. rewrite (IH _ Hr).
  by rewrite fold_left_app.
Qed.

(** One well-formed page adds its tags and hands over its [next]. *)
Lemma tags_page_spec (p : pyval) (m : gmap hkey pyval) :
  tags_page_ok p = true ->
  tags_page p m = Ok (add_page m p, field "next" p).
Proof.
  destruct p as [| | | | | e]; try done. unfold tags_page_ok.
  intros [_ Hres]%andb_true_iff.
  unfold tags_page, add_page, page_tags, page_pairs, page_results. simpl.
  destruct (assoc "results" e) as [[| | | | l |] |]; try done; simpl.
  - rewrite (ofold_collect_tag l m Hres). simpl. by rewrite fold_insert_union.
  - by rewrite (left_id_L ∅ (∪)).
Qed.

Lemma tags_page_ok_truthy (p : pyval) : tags_page_ok p = true -> truthy p = true.
Proof.
  destruct p; try done. unfold tags_page_ok. by intros [H _]%andb_true_iff.
Qed.

(** The loop reads the pages of a pagination, given enough fuel. *)
Lemma tags_loop_pagination (w w' : world) (url : pyval) (pages : list pyval) :
  pagination w url pages w' ->
  forall (fuel : nat) (m : gmap hkey pyval),
    (length pages < fuel)%nat ->
    tags_loop fuel url m w = Some (Ok (fold_left add_page pages m), w').
Proof.
  induction 1 as [w url Hu | w url data w1 Hu Hreq Hd
                 | w url p w1 pages w2 Hu Hreq Hp _ IH];
    intros fuel m Hfuel.
  - destruct fuel; simpl; by rewrite Hu.
  - destruct fuel as [| fuel]; [simpl in Hfuel; lia |].
    simpl. by rewrite Hu, Hreq, Hd.
  - destruct fuel as [| fuel]; [simpl in Hfuel; lia |].
    simpl. rewrite Hu, Hreq, (tags_page_ok_truthy p Hp). simpl.
    rewrite (tags_page_spec p m Hp). apply IH. simpl in Hfuel. lia.
Qed.

Lemma lookup_add_pages (pages : list pyval) (m : gmap hkey pyval)
  (k : hkey) (v : pyval) :
  fold_left add_page pages m !! k = Some v ->
  m !! k = Some v \/ exists p, p ∈ pages /\ page_tags p !! k = Some v.
Proof.
  revert m. induction pages as [| p pages IH]; intros m; simpl; [by left |].
  intros H. destruct (IH _ H) as [Hm | (q & Hq & Hk)].
  - unfold add_page in Hm. apply lookup_union_Some_raw in Hm as [Hp | [_ Hm]].
    + right. exists p. split; [apply list_elem_of_here | done].
    + by left.
  - right. exists q. split; [by apply list_elem_of_further | done].
Qed.

Lemma add_pages_lookup_mono (pages : list pyval) (m : gmap hkey pyval) (k : hkey) :
  is_Some (m !! k) -> is_Some (fold_left add_page pages m !! k).
Proof.
  revert m. induction pages as [| p pages IH]; intros m Hm; simpl; [done |].
  apply IH. unfold add_page. rewrite lookup_union_is_Some. by right.
Qed.

Lemma add_pages_covers (pages : list pyval) (m : gmap hkey pyval)
  (p : pyval) (k : hkey) :
  p ∈ pages -> is_Some (page_tags p !! k) ->
  is_Some (fold_left add_page pages m !! k).
Proof.
  revert m. induction pages as [| q pages IH]; intros m Hp Hk.
  - by apply elem_of_nil in Hp.
  - simpl. apply elem_of_cons in Hp as [-> | Hp].
    + apply add_pages_lookup_mono. unfold add_page.
      rewrite lookup_union_is_Some. by left.
    + by apply IH.
Qed.

(** C5: along a pagination of well-formed pages, [get_tags_map] returns
    (with enough fuel) the union of the pages' id→name pairs, whether the
    pagination ends at a page without [next] or at a request that fails or
    brings no data: every tag of the result is a pair of a page, every id
    of a page is in the result, and when no id occurs twice every pair of
    every page is in the result.  Records without [id] or [name] add
    nothing. *)
Theorem tags_accumulate_over_pages (pages : list pyval) (w w' : world) (fuel : nat) :
  pagination w (VStr (MYURL +:+ "/api/tags/")) pages w' ->
  (length pages < fuel)%nat ->
  let all_tags := fold_left add_page pages ∅ in
  get_tags_map fuel w
  = Some (Ok all_tags,
          printed w' ("Found " +:+ str_int (Z.of_nat (size all_tags))
                        +:+ " tags across all pages.")) /\
  (forall k v, all_tags !! k = Some v ->
               exists p, p ∈ pages /\ (k, v) ∈ page_pairs p) /\
  (forall p k v, p ∈ pages -> (k, v) ∈ page_pairs p -> is_Some (all_tags !! k)) /\
  (NoDup ((flat_map page_pairs pages).*1) ->
   forall p k v, p ∈ pages -> (k, v) ∈ page_pairs p -> all_tags !! k = Some v).
Proof.
  intros Hpag Hfuel all_tags.
  assert (Hfrom : forall k v, all_tags !! k = Some v ->
                              exists p, p ∈ pages /\ (k, v) ∈ page_pairs p).
  { intros k v Hk. apply lookup_add_pages in Hk as [Hk | (p & Hp & Hk)]; [done |].
    exists p. split; [exact Hp |].
    unfold page_tags in Hk. apply elem_of_list_to_map_2 in Hk.
    by rewrite elem_of_reverse in Hk. }
  assert (Hinto : forall p k v, p ∈ pages -> (k, v) ∈ page_pairs p ->
                                is_Some (all_tags !! k)).
  { intros p k v Hp Hkv. apply (add_pages_covers pages ∅ p k Hp).
    unfold page_tags. apply not_eq_None_Some.
    rewrite <- not_elem_of_list_to_map. intros Hnot. apply Hnot.
    apply list_elem_of_fmap. exists (k, v). split; [done |].
    by rewrite elem_of_reverse. }
  split; [| split; [exact Hfrom | split; [exact Hinto |]]]; cycle 1.
  { intros Hnodup p k v Hp Hkv.
    destruct (Hinto p k v Hp Hkv) as [v' Hv'].
    destruct (Hfrom k v' Hv') as (q & Hq & Hkv').
    assert (Hall : forall r x, r ∈ pages -> (k, x) ∈ page_pairs r ->
                   (list_to_map (flat_map page_pairs pages) : gmap hkey pyval) !! k
                   = Some x).
    { intros r x Hr Hx. apply elem_of_list_to_map; [exact Hnodup |].
      apply list_elem_of_In, in_flat_map. exists r.
      split; by apply list_elem_of_In. }
    rewrite Hv'. pose proof (Hall p v Hp Hkv) as E1.
    pose proof (Hall q v' Hq Hkv') as E2. congruence. }
  unfold get_tags_map.
  by rewrite (tags_loop_pagination _ _ _ _ Hpag fuel ∅ Hfuel).
Qed.


(** *** One item *)

Lemma strs_of_strings (l : list string) : strs_of (map VStr l) = Ok l.
Proof. induction l as [| s l IH]; simpl; [done |]. by rewrite IH. Qed.

Lemma tag_name_resolvable (tag_map : gmap hkey pyval) (tid : pyval) :
  tag_resolvable tag_map tid = true ->
  tag_name tag_map tid = Ok (VStr (tag_label tag_map tid)).
Proof.
  unfold tag_resolvable, tag_name, map_get, tag_label.
  intros [Hh Hn]%andb_true_iff. rewrite (to_key_hashable tid Hh).
  destruct (tag_map !! key_of tid) as [[| | | s | |] |]; done.
Qed.

Lemma tags_string_resolvable (tag_map : gmap hkey pyval) (tids : list pyval) :
  forallb (tag_resolvable tag_map) tids = true ->
  tags_string tag_map (VList tids) = Ok (tags_text tag_map tids).
Proof.
  intros H. unfold tags_string. simpl.
  rewrite (omap_pure (tag_name tag_map) (fun tid => VStr (tag_label tag_map tid))).
  - simpl. destruct tids as [| tid tids]; [done |].
    unfold tags_text. rewrite <- (map_map (tag_label tag_map) VStr).
    change (VStr (tag_label tag_map tid) :: map VStr (map (tag_label tag_map) tids))
      with (map VStr (map (tag_label tag_map) (tid :: tids))).
    unfold py_join. by rewrite strs_of_strings.
  - apply Forall_forall. intros tid Hin. apply tag_name_resolvable.
    rewrite forallb_forall in H. apply H. by apply list_elem_of_In.
Qed.

(** The item of a document with an id, once its parts are known. *)
Lemma process_doc_rendered (corr_map tag_map : gmap hkey pyval)
  (e : list (string * pyval)) (w w1 : world)
  (corr_name o a c : pyval) (ag : age) (tags_str : string) :
  truthy (field "id" (VDict e)) = true ->
  map_get corr_map (field "correspondent" (VDict e)) (VStr "No Correspondent")
  = Ok corr_name ->
  get_document_details (field "id" (VDict e)) w = (Ok (o, a, c), w1) ->
  calculate_age today c = Ok ag ->
  tags_string tag_map (doc_tags_of (VDict e)) = Ok tags_str ->
  process_doc corr_map tag_map (VDict e) w
  = (Ok (Some (render_item (field "id" (VDict e)) corr_name (format_age ag)
                 tags_str o a)), w1).
Proof.
  intros Hid Hc Hd Ha Ht. unfold process_doc, bind, lift, ret. simpl in *.
  rewrite Hid, Hc. simpl. rewrite Hd. simpl. by rewrite Ha, Ht.
Qed.




(** No correspondent with a null id: [None] is not a key of the dictionary. *)
Lemma corr_map_without_null (correspondents : list correspondent) :
  forallb (fun c => hashable (corr_id c)) correspondents = true ->
  forallb (fun c => negb (is_null (corr_id c))) correspondents = true ->
  corr_map_of correspondents !! KNone = None.
Proof.
  unfold corr_map_of. generalize (∅ : gmap hkey pyval) (lookup_empty (A:=pyval) KNone).
  induction correspondents as [| c cs IH]; intros m Hm Hh Hn; simpl; [done |].
  simpl in Hh, Hn.
  apply andb_true_iff in Hh as [Hc Hh]. apply andb_true_iff in Hn as [Hcn Hn].
  apply IH; [| done | done].
  rewrite lookup_insert_ne; [done |].
  destruct (corr_id c); simpl in *; done.
Qed.

(** C7: in the item of a document, a correspondent id that is null (no
    correspondent having a null id) or that has no entry in the
    correspondent dictionary renders as [No Correspondent]; the tags are
    the names of all tag ids in order, [Tag-<id>] standing for an id
    without an entry in the tag dictionary, and [None] for an empty list
    of tags. *)
Theorem unresolved_names_get_defaults
  (correspondents : list correspondent) (tag_map : gmap hkey pyval)
  (e : list (string * pyval)) (tids : list pyval) (w w1 : world)
  (o a c : pyval) (ag : age) :
  forallb (fun c => hashable (corr_id c)) correspondents = true ->
  truthy (field "id" (VDict e)) = true ->
  (field "correspondent" (VDict e) = VNone /\
   forallb (fun c => negb (is_null (corr_id c))) correspondents = true) \/
  (hashable (field "correspondent" (VDict e)) = true /\
   corr_map_of correspondents !! key_of (field "correspondent" (VDict e)) = None) ->
  doc_tags_of (VDict e) = VList tids ->
  forallb (tag_resolvable tag_map) tids = true ->
  get_document_details (field "id" (VDict e)) w = (Ok (o, a, c), w1) ->
  calculate_age today c = Ok ag ->
  build_corr_map correspondents = Ok (corr_map_of correspondents) /\
  process_doc (corr_map_of correspondents) tag_map (VDict e) w
  = (Ok (Some (render_item (field "id" (VDict e)) (VStr "No Correspondent")
                 (format_age ag) (tags_text tag_map tids) o a)), w1) /\
  tags_text tag_map [] = "None" /\
  (forall tid rest,
     tags_text tag_map (tid :: rest)
     = join ", " (map (tag_label tag_map) (tid :: rest))) /\
  (forall tid, tag_map !! key_of tid = None ->
               tag_label tag_map tid = "Tag-" +:+ str tid).
Proof.
  intros Hcs Hid Hcorr Htags Hres Hdet Hage.
  assert (Habsent : hashable (field "correspondent" (VDict e)) = true /\
                    corr_map_of correspondents
                      !! key_of (field "correspondent" (VDict e)) = None).
  { destruct Hcorr as [[Hnull Hnn] | Habs]; [| exact Habs].
    rewrite Hnull. split; [done |]. by apply corr_map_without_null. }
  destruct Habsent as [Hh Hnone].
  split; [by apply build_corr_map_hashable |].
  split; [| split; [done | split; [done |]]].
  - apply (process_doc_rendered _ _ _ _ _ _ _ _ c ag); try done.
    + unfold map_get. rewrite (to_key_hashable _ Hh). by rewrite Hnone.
    + rewrite Htags. by apply tags_string_resolvable.
  - intros tid Hnone'. unfold tag_label. by rewrite Hnone'.
Qed.


(** *** The fetchers *)

Lemma safe_request_response (url : string) (json : pyval) (w : world) :
  http_get (requests w) (VStr url) = Response json ->
  safe_request (VStr url) w = (Ok json, answered w url).
Proof.
  intros H. unfold safe_request, bind, debug_print, print, sent, ret. simpl.
  by rewrite H.
Qed.

Lemma safe_request_no_data (url : pyval) (w : world) :
  no_data (http_get (requests w) url) = true ->
  exists data,
    safe_request url w = (Ok data, snd (safe_request url w)) /\ truthy data = false.
Proof.
  intros H. unfold safe_request, bind, debug_print, print, sent, ret. simpl.
  destruct (http_get (requests w) url) as [json | x]; simpl in *.
  - exists json. split; [done | by apply negb_true_iff].
  - by exists VNone.
Qed.

Lemma safe_request_requests (url : pyval) (w : world) :
  requests (snd (safe_request url w)) = (requests w ++ [url])%list.
Proof.
  unfold safe_request, bind, debug_print, print, sent, ret. simpl.
  by destruct (http_get (requests w) url).
Qed.

Lemma keep_correspondent_dict (r : list (string * pyval)) :
  keep_correspondent (VDict r) = Ok (correspondent_of (VDict r)).
Proof.
  unfold keep_correspondent. simpl.
  destruct (assoc "id" r) as [i |]; simpl; [| done].
  destruct (assoc "name" r) as [n |]; simpl; done.
Qed.

Lemma omap_keep_correspondent (records : list pyval) :
  forallb is_dict records = true ->
  omap keep_correspondent records = Ok (map correspondent_of records).
Proof.
  intros H. apply omap_pure. apply Forall_forall. intros c Hc.
  rewrite forallb_forall in H. apply list_elem_of_In, H in Hc.
  destruct c; try done. apply keep_correspondent_dict.
Qed.

Lemma concat_map_flat_map {A B} (f : A -> list B) (l : list A) :
  concat (map f l) = flat_map f l.
Proof. induction l as [| x l IH]; simpl; [done |]. by rewrite IH. Qed.

Lemma correspondent_of_length (c : pyval) : (length (correspondent_of c) <= 1)%nat.
Proof.
  destruct c as [| | | | | r]; simpl; try lia.
  destruct (assoc "id" r), (assoc "name" r); simpl; lia.
Qed.

(** X1: on a page whose [results] are a list of JSON objects,
    [get_correspondents] returns, in the order of the page, the id and the
    name of exactly the records that have both keys; it sends one request
    and prints the number of correspondents it kept. *)
Theorem get_correspondents_keeps_valid_records
  (e : list (string * pyval)) (records : list pyval) (w : world) :
  http_get (requests w) (VStr (MYURL +:+ "/api/correspondents/?page_size=9999"))
  = Response (VDict e) ->
  assoc "results" e = Some (VList records) ->
  forallb is_dict records = true ->
  let kept := flat_map correspondent_of records in
  get_correspondents w
  = (Ok kept,
     printed (answered w (MYURL +:+ "/api/correspondents/?page_size=9999"))
       ("Found " +:+ str_int (Z.of_nat (length kept)) +:+ " correspondents.")) /\
  (length kept <= length records)%nat /\
  (forall i n,
     mkcorr i n ∈ kept <->
     exists r, VDict r ∈ records /\ assoc "id" r = Some i /\ assoc "name" r = Some n).
Proof.
  intros Hget Hres Hdicts kept. split; [| split].
  - unfold get_correspondents, bind, lift, ret, debug_print, print.
    rewrite (safe_request_response _ _ _ Hget).
    assert (Ht : truthy (VDict e) = true) by (destruct e; done).
    rewrite Ht. simpl. rewrite Hres. simpl.
    rewrite (omap_keep_correspondent records Hdicts). simpl.
    by rewrite concat_map_flat_map.
  - subst kept. clear. induction records as [| c records IH]; simpl; [lia |].
    rewrite length_app. pose proof (correspondent_of_length c). lia.
  - intros i n. subst kept. rewrite list_elem_of_In, in_flat_map. split.
    + intros (c & Hc & Hin). destruct c as [| | | | | r]; try done.
      exists r. split; [by apply list_elem_of_In |]. simpl in Hin.
      destruct (assoc "id" r) as [i' |]; [| done].
      destruct (assoc "name" r) as [n' |]; [| done].
      destruct Hin as [[= -> ->] | []]. done.
    + intros (r & Hr & Hi & Hn). exists (VDict r).
      split; [by apply list_elem_of_In |]. simpl. rewrite Hi, Hn. by left.
Qed.

(** X2: when the request brings no data (it raised, or its JSON is falsy),
    [get_correspondents] returns the empty list and [get_documents] the
    empty list, without raising and without a second request. *)
Theorem fetchers_return_nothing_without_data (w : world) :
  no_data (http_get (requests w)
             (VStr (MYURL +:+ "/api/correspondents/?page_size=9999"))) = true ->
  no_data (http_get (requests w)
             (VStr (MYURL +:+ "/api/documents/" +:+ SEARCHPATH))) = true ->
  (exists w1,
     get_correspondents w = (Ok [], w1) /\
     requests w1
     = (requests w ++ [VStr (MYURL +:+ "/api/correspondents/?page_size=9999")])%list) /\
  (exists w2,
     get_documents w = (Ok (VList []), w2) /\
     requests w2
     = (requests w ++ [VStr (MYURL +:+ "/api/documents/" +:+ SEARCHPATH)])%list).
Proof.
  intros Hc Hd. split.
  - destruct (safe_request_no_data _ _ Hc) as (data & Hreq & Hfalsy).
    eexists. split; [| apply safe_request_requests].
    unfold get_correspondents, bind. rewrite Hreq, Hfalsy. reflexivity.
  - destruct (safe_request_no_data _ _ Hd) as (data & Hreq & Hfalsy).
    eexists. split; [| apply safe_request_requests].
    unfold get_documents, bind. rewrite Hreq, Hfalsy. reflexivity.
Qed.

(** X3: on a JSON object, [get_documents] returns the list under
    [results], or the empty list when the key is missing, and prints its
    length; a [results] that is null, a bool or a number makes it raise a
    [TypeError], from the [len] of the printed line, after the request. *)
Theorem get_documents_results (e : list (string * pyval)) (w : world) :
  http_get (requests w) (VStr (MYURL +:+ "/api/documents/" +:+ SEARCHPATH))
  = Response (VDict e) ->
  e <> [] ->
  let w1 := answered w (MYURL +:+ "/api/documents/" +:+ SEARCHPATH) in
  (assoc "results" e = None ->
   get_documents w = (Ok (VList []), printed w1 "Found 0 documents.")) /\
  (forall docs,
     assoc "results" e = Some (VList docs) ->
     get_documents w
     = (Ok (VList docs),
        printed w1 ("Found " +:+ str_int (Z.of_nat (length docs)) +:+ " documents."))) /\
  (forall v,
     assoc "results" e = Some v ->
     match v with VNone | VBool _ | VInt _ => True | _ => False end ->
     get_documents w = (Raise (TypeError (NotIterable v)), w1)).
Proof.
  intros Hget He w1.
  assert (Ht : truthy (VDict e) = true) by (destruct e; done).
  unfold get_documents, bind, lift, ret, debug_print, print.
  rewrite (safe_request_response _ _ _ Hget), Ht. simpl.
  split; [| split].
  - by intros ->.
  - by intros docs ->.
  - intros v -> Hv. by destruct v.
Qed.


(** *** The mail and main *)

Lemma run_io_print (line : string) (s : system) :
  run_io (print line) s = (Ok tt, mksystem (printed (net s) line) (mailed s)).
Proof. reflexivity. Qed.

(** What [send_email_with_mail_command] does, by the recipient and the
    result of the command. *)
Lemma send_email_cases (subject_line body : string) (s : system) :
  let s1 := mksystem (printed (net s) "Sending email via `mail` command...") (mailed s) in
  send_email_with_mail_command subject_line body s
  = match recipient_of TO with
    | inl err =>
        (Ok tt, mksystem (printed (net s1)
                            ("Error sending email: " +:+ mail_error_text err))
                         (mailed s))
    | inr (VStr recipient) =>
        match mail_command (mailed s) (mkmail subject_line recipient body) with
        | Exited returncode =>
            (Ok tt,
             mksystem (printed (net s1)
                         (if returncode =? 0 then "Email sent successfully."
                          else "Failed to send email with the `mail` command."))
                      (mailed s ++ [(mkmail subject_line recipient body, returncode)]))
        | MailException text =>
            (Ok tt, mksystem (printed (net s1) ("Error sending email: " +:+ text))
                             (mailed s))
        end
    | inr v =>
        (Ok tt, mksystem (printed (net s1)
                            ("Error sending email: "
                               +:+ mail_error_text (BadRecipient v)))
                         (mailed s))
    end.
Proof.
  intros s1. unfold send_email_with_mail_command, pbind, run_mail.
  rewrite run_io_print. fold s1.
  destruct (recipient_of TO) as [err | [| | | recipient | |]]; try reflexivity.
  simpl. destruct (mail_command (mailed s) _) as [returncode | text]; simpl;
    [destruct (returncode =? 0) |]; reflexivity.
Qed.

(** X7: [send_email_with_mail_command] never raises and sends no request.
    It runs the [mail] command at most once, with the given subject and
    body, for the first entry of [TO] when [TO] is a list and for [TO]
    itself otherwise; with an empty list it runs nothing. *)
Theorem send_email_first_recipient_only (subject_line body : string) (s : system) :
  exists s' runs,
    send_email_with_mail_command subject_line body s = (Ok tt, s') /\
    requests (net s') = requests (net s) /\
    mailed s' = (mailed s ++ runs)%list /\
    (length runs <= 1)%nat /\
    (forall call code,
       (call, code) ∈ runs ->
       mail_subject call = subject_line /\ mail_body call = body /\
       recipient_of TO = inr (VStr (mail_recipient call))) /\
    (TO = VList [] -> runs = []).
Proof.
  rewrite send_email_cases.
  assert (Hnone : forall s1 : system,
            requests (net s1) = requests (net s) -> mailed s1 = mailed s ->
            exists s' runs,
              (Ok tt, s1) = (Ok tt, s') /\
              requests (net s') = requests (net s) /\
              mailed s' = (mailed s ++ runs)%list /\
              (length runs <= 1)%nat /\
              (forall call code,
                 (call, code) ∈ runs ->
                 mail_subject call = subject_line /\ mail_body call = body /\
                 recipient_of TO = inr (VStr (mail_recipient call))) /\
              (TO = VList [] -> runs = [])).
  { intros s1 Hreq Hmail. exists s1, []. rewrite app_nil_r.
    split; [done |]. split; [done |]. split; [done |].
    split; [simpl; lia |]. split; [| done].
    intros call code Hin. by apply elem_of_nil in Hin. }
  destruct (recipient_of TO) as [err | v] eqn:Hto; [by apply Hnone |].
  assert (Hempty : TO <> VList []) by (intros ->; discriminate Hto).
  destruct v as [| | | recipient | |]; try by apply Hnone.
  destruct (mail_command (mailed s) _) as [returncode | text] eqn:Hcmd;
    [| by apply Hnone].
  eexists _, [(mkmail subject_line recipient body, returncode)].
  split; [done |]. split; [done |]. split; [done |].
  split; [simpl; lia |]. split; [| done].
  intros call code Hin. apply list_elem_of_singleton in Hin.
  by injection Hin as -> ->.
Qed.

Lemma send_email_ok (subject_line body : string) (s : system) :
  exists s',
    send_email_with_mail_command subject_line body s = (Ok tt, s') /\
    requests (net s') = requests (net s).
Proof.
  rewrite send_email_cases.
  destruct (recipient_of TO) as [err | [| | | recipient | |]]; try by eexists.
  destruct (mail_command (mailed s) _) as [returncode | text]; by eexists.
Qed.

(** X4: [main] never raises.  When a step before the mail raises, the last
    line printed is [Error during execution: ...] with the text of the
    exception, and no mail is run. *)
Theorem main_catches_everything (fuel : nat) (s s' : system) (r : outcome unit) :
  main fuel s = Some (r, s') ->
  r = Ok tt /\
  (forall e w,
     fetch_and_build fuel (net s) = Some (Raise e, w) ->
     mailed s' = mailed s /\
     net s' = printed w ("Error during execution: " +:+ exn_text e)).
Proof.
  unfold main, main_body.
  destruct (fetch_and_build fuel (net s)) as [[[[subject_line body] | e] w] |];
    [| | done].
  - unfold pbind.
    destruct (send_email_ok subject_line body (mksystem w (mailed s)))
      as (s1 & -> & _).
    rewrite run_io_print. intros [= <- <-]. split; [done |]. intros e w' [=].
  - rewrite run_io_print. simpl. intros [= <- <-]. split; [done |].
    by intros e' w' [= <- <-].
Qed.

(** X8: once the subject and the body are built, [main] ends with the line
    [Script completed successfully.] whatever becomes of the mail; after a
    run of [mail] with a return code other than 0 that line follows the
    line [Failed to send email with the `mail` command.]. *)
Theorem failed_delivery_still_completes (fuel : nat) (s : system)
  (subject_line body : string) (w : world) :
  fetch_and_build fuel (net s) = Some (Ok (subject_line, body), w) ->
  exists s',
    main fuel s = Some (Ok tt, s') /\
    last (stdout (net s')) = Some "Script completed successfully." /\
    (forall recipient code,
       recipient_of TO = inr (VStr recipient) ->
       mail_command (mailed s) (mkmail subject_line recipient body) = Exited code ->
       code <> 0 ->
       mailed s' = (mailed s ++ [(mkmail subject_line recipient body, code)])%list /\
       stdout (net s')
       = (stdout w ++ ["Sending email via `mail` command...";
                       "Failed to send email with the `mail` command.";
                       "Script completed successfully."])%list).
Proof.
  intros Hbuild. unfold main, main_body. rewrite Hbuild. unfold pbind.
  pose proof (send_email_cases subject_line body (mksystem w (mailed s))) as Hsend.
  destruct (send_email_ok subject_line body (mksystem w (mailed s)))
    as (s1 & Hs1 & _).
  rewrite Hs1. rewrite run_io_print. eexists. split; [done |]. split.
  - simpl. apply last_snoc.
  - intros recipient code Hto Hcmd Hcode. rewrite Hs1 in Hsend.
    simpl in Hsend. rewrite Hto, Hcmd in Hsend.
    apply Z.eqb_neq in Hcode. rewrite Hcode in Hsend.
    injection Hsend as ->. simpl. split; [done |].
    by rewrite <- !app_assoc.
Qed.


Lemma fetch_and_build_steps (fuel : nat) (w w1 w2 w3 : world)
  (correspondents : list correspondent) (tag_map : gmap hkey pyval)
  (docs : pyval) (items : list pyval) :
  get_correspondents (printed w "Starting script...") = (Ok correspondents, w1) ->
  get_tags_map fuel w1 = Some (Ok tag_map, w2) ->
  get_documents w2 = (Ok docs, w3) ->
  py_iter docs = Ok items ->
  fetch_and_build fuel w
  = Some ((subject_line <- lift (build_subject_line items) ;;
           debug_print ("Using subject: " +:+ subject_line) ;;;
           email_body <- build_html_body items correspondents tag_map ;;
           ret (subject_line, email_body))%io w3).
Proof.
  intros Hc Ht Hd Hi. unfold fetch_and_build.
  unfold bind at 1, debug_print at 1, print at 1. fold (printed w "Starting script...").
  rewrite Hc, Ht. f_equal. unfold bind at 1. rewrite Hd.
  unfold bind at 1, lift at 1. by rewrite Hi.
Qed.

Lemma tags_url_truthy : truthy (VStr (MYURL +:+ "/api/tags/")) = true.
Proof. simpl. by destruct MYURL. Qed.

(** X5: when every request fails or brings no data, [main] sends three
    requests and then runs [mail] for the first recipient with the subject
    of zero documents and the body of the placeholder item. *)
Theorem unreachable_server_mails_empty_report (fuel : nat) (s : system)
  (recipient : string) :
  (forall history url, no_data (http_get history url) = true) ->
  (0 < fuel)%nat ->
  recipient_of TO = inr (VStr recipient) ->
  let call :=
    mkmail "0 - files in need of attendance (0 over 30days)" recipient
      (html_page ["<li>No documents found.</li>"]) in
  exists s',
    main fuel s = Some (Ok tt, s') /\
    length (requests (net s')) = (length (requests (net s)) + 3)%nat /\
    (forall code,
       mail_command (mailed s) call = Exited code ->
       mailed s' = (mailed s ++ [(call, code)])%list).
Proof.
  intros Hdown Hfuel Hto call.
  set (w0 := printed (net s) "Starting script...").
  destruct (safe_request_no_data
              (VStr (MYURL +:+ "/api/correspondents/?page_size=9999")) w0
              (Hdown _ _)) as (d1 & Hreq1 & Hf1).
  set (w1 := snd (safe_request
                    (VStr (MYURL +:+ "/api/correspondents/?page_size=9999")) w0))
    in *.
  assert (Hc : get_correspondents w0 = (Ok [], w1)).
  { unfold get_correspondents, bind. by rewrite Hreq1, Hf1. }
  destruct (safe_request_no_data (VStr (MYURL +:+ "/api/tags/")) w1 (Hdown _ _))
    as (d2 & Hreq2 & Hf2).
  set (w2 := snd (safe_request (VStr (MYURL +:+ "/api/tags/")) w1)) in *.
  assert (Ht : get_tags_map fuel w1
               = Some (Ok ∅, printed w2 "Found 0 tags across all pages.")).
  { unfold get_tags_map.
    rewrite (tags_loop_pagination w1 w2 _ []
               (pagination_fail _ _ d2 w2 tags_url_truthy Hreq2 Hf2) fuel ∅);
      [done | simpl; lia]. }
  set (w2' := printed w2 "Found 0 tags across all pages.") in *.
  destruct (safe_request_no_data
              (VStr (MYURL +:+ "/api/documents/" +:+ SEARCHPATH)) w2'
              (Hdown _ _)) as (d3 & Hreq3 & Hf3).
  set (w3 := snd (safe_request
                    (VStr (MYURL +:+ "/api/documents/" +:+ SEARCHPATH)) w2')) in *.
  assert (Hd : get_documents w2' = (Ok (VList []), w3)).
  { unfold get_documents, bind. by rewrite Hreq3, Hf3. }
  pose proof (fetch_and_build_steps fuel (net s) w1 w2' w3 [] ∅ (VList []) []
                Hc Ht Hd eq_refl) as Hbuild.
  assert (Hbuilt : fetch_and_build fuel (net s)
                   = Some (Ok (mail_subject call, mail_body call),
                           printed w3 ("Using subject: " +:+ mail_subject call))).
  { rewrite Hbuild. reflexivity. }
  assert (Hlen : length (requests w3) = (length (requests (net s)) + 3)%nat).
  { subst w3 w2' w2 w1 w0. rewrite safe_request_requests. simpl.
    rewrite safe_request_requests, safe_request_requests. simpl.
    rewrite !length_app. simpl. lia. }
  unfold main, main_body. rewrite Hbuilt.
  unfold pbind. rewrite send_email_cases. rewrite Hto. simpl mailed.
  change (mkmail (mail_subject call) recipient (mail_body call)) with call.
  destruct (mail_command (mailed s) call) as [code | text] eqn:Hcmd.
  - rewrite run_io_print. eexists. split; [done |]. simpl.
    split; [exact Hlen |]. by intros code' [= <-].
  - rewrite run_io_print. eexists. split; [done |]. simpl.
    split; [exact Hlen |]. by intros code' [=].
Qed.

(** X6: when the documents that [get_documents] returned mix an int age
    and an ["N/A"] age, [main] runs no [mail] at all: its last line is
    [Error during execution: ...]. *)
Theorem mixed_ages_send_no_mail (fuel : nat) (s : system) (w1 w2 w3 : world)
  (correspondents : list correspondent) (tag_map : gmap hkey pyval)
  (docs : list pyval) (d1 d2 : pyval) (n : Z) :
  get_correspondents (printed (net s) "Starting script...")
  = (Ok correspondents, w1) ->
  get_tags_map fuel w1 = Some (Ok tag_map, w2) ->
  get_documents w2 = (Ok (VList docs), w3) ->
  d1 ∈ docs -> d2 ∈ docs ->
  doc_age d1 = Ok (Days n) -> doc_age d2 = Ok NA ->
  exists s' e,
    main fuel s = Some (Ok tt, s') /\
    mailed s' = mailed s /\
    requests (net s') = requests w3 /\
    last (stdout (net s')) = Some ("Error during execution: " +:+ exn_text e).
Proof.
  intros Hc Ht Hd H1 H2 Ha1 Ha2.
  pose proof (fetch_and_build_steps fuel (net s) w1 w2 w3 correspondents tag_map
                (VList docs) docs Hc Ht Hd eq_refl) as Hbuild.
  destruct (sorted_docs_mixed docs d1 d2 n H1 H2 Ha1 Ha2) as [e He].
  assert (Hraise : exists e' w',
             fetch_and_build fuel (net s) = Some (Raise e', w') /\
             requests w' = requests w3).
  { rewrite Hbuild. unfold bind, lift, ret, debug_print, print.
    destruct (build_subject_line docs) as [subject_line | e']; [| by eexists _, _].
    simpl. unfold build_html_body, build_html_items, bind, lift.
    simpl. destruct (build_corr_map correspondents) as [cm | e']; [| by eexists _, _].
    rewrite He. by eexists _, _. }
  destruct Hraise as (e' & w' & Hfail & Hreq).
  unfold main, main_body. rewrite Hfail. rewrite run_io_print.
  eexists _, e'. split; [done |]. simpl. split; [done |]. split; [done |].
  apply last_snoc.
Qed.


(** *** The order of the report *)

Lemma insert_desc_split (x : age * pyval) (l s : list (age * pyval)) :
  insert_desc x l = Ok s ->
  exists l1 l2,
    l = (l1 ++ l2)%list /\ s = (l1 ++ x :: l2)%list /\
    Forall (fun y => age_lt (fst x) (fst y) = Ok true) l1.
Proof.
  revert s. induction l as [| y l IH]; intros s; simpl.
  - intros [= <-]. by exists [], [].
  - destruct (age_lt (fst x) (fst y)) as [[|] | e] eqn:Hxy; simpl; [| | done].
    + destruct (insert_desc x l) as [r | e]; simpl; [| done].
      intros [= <-]. destruct (IH r eq_refl) as (l1 & l2 & -> & -> & Hall).
      exists (y :: l1), l2. repeat split; try done. by constructor.
    + intros [= <-]. by exists [], (y :: l).
Qed.

Lemma age_lt_not_equal (a b : age) :
  age_lt a b = Ok true -> forall c, age_eqb a c = true -> age_eqb b c = false.
Proof.
  destruct a, b; simpl; try done. intros [= H] c. destruct c; [| done].
  intros Hc. apply Z.ltb_lt in H. apply Z.eqb_eq in Hc. apply Z.eqb_neq. lia.
Qed.

Lemma insert_desc_filter (x : age * pyval) (l s : list (age * pyval)) (a : age) :
  insert_desc x l = Ok s ->
  List.filter (fun p => age_eqb (fst p) a) s
  = List.filter (fun p => age_eqb (fst p) a) (x :: l).
Proof.
  intros H. destruct (insert_desc_split x l s H) as (l1 & l2 & -> & -> & Hall).
  simpl. rewrite !List.filter_app. simpl.
  destruct (age_eqb (fst x) a) eqn:Hx; [| done].
  assert (Hnone : List.filter (fun p => age_eqb (fst p) a) l1 = []).
  { clear H. induction Hall as [| y l1 Hy _ IH]; simpl; [done |].
    by rewrite (age_lt_not_equal _ _ Hy a Hx). }
  by rewrite Hnone.
Qed.

Lemma sort_desc_filter (l s : list (age * pyval)) (a : age) :
  sort_desc l = Ok s ->
  List.filter (fun p => age_eqb (fst p) a) s
  = List.filter (fun p => age_eqb (fst p) a) l.
Proof.
  revert s. induction l as [| x l IH]; intros s; simpl.
  - by intros [= <-].
  - destruct (sort_desc l) as [r | e]; simpl; [| done].
    intros H. rewrite (insert_desc_filter x r s a H). simpl.
    by rewrite (IH r eq_refl).
Qed.

Lemma filter_keyed (f : age * pyval -> bool) (docs : list pyval) :
  List.filter f (map keyed docs)
  = map keyed (List.filter (fun d => f (keyed d)) docs).
Proof.
  induction docs as [| d docs IH]; simpl; [done |].
  destruct (f (keyed d)); simpl; by rewrite IH.
Qed.

Lemma sort_desc_keyed (docs : list pyval) (s : list (age * pyval)) :
  sort_desc (map keyed docs) = Ok s -> map keyed (map snd s) = s.
Proof.
  intros Hs.
  assert (Hin : forall p, p ∈ s -> p = keyed (snd p)).
  { intros p Hp. rewrite (sort_desc_perm _ _ Hs) in Hp.
    apply list_elem_of_fmap in Hp as (d & -> & _). reflexivity. }
  clear Hs. induction s as [| p s IH]; simpl; [done |].
  rewrite <- (Hin p) by apply list_elem_of_here.
  rewrite IH; [done |]. intros q Hq. by apply Hin, list_elem_of_further.
Qed.

(** X9: the sort is stable: the documents of one age stand in the sorted
    list in the order they had in the fetched list. *)
Theorem sort_keeps_order_of_equal_ages (docs sd : list pyval) (a : age) :
  sorted_docs docs = Ok sd -> of_age a sd = of_age a docs.
Proof.
  intros H. destruct (sorted_docs_inv docs sd H) as (_ & s & Hs & ->).
  pose proof (sort_desc_filter _ _ a Hs) as Hf.
  rewrite filter_keyed in Hf. rewrite <- (sort_desc_keyed docs s Hs) in Hf at 1.
  rewrite filter_keyed in Hf. unfold of_age.
  apply (f_equal (map snd)) in Hf. by rewrite !map_snd_keyed in Hf.
Qed.

Lemma descending_head (x : age * pyval) (l : list (age * pyval)) :
  descending (x :: l) -> Forall (fun y => age_lt (fst x) (fst y) = Ok false) l.
Proof.
  revert x. induction l as [| y l IH]; intros x; [by constructor |].
  intros [Hxy Hd]. constructor; [exact Hxy |].
  specialize (IH y Hd). eapply Forall_impl; [exact IH |].
  intros z Hz. simpl in Hz. by apply (age_lt_false_trans _ (fst y)).
Qed.

Lemma descending_pairs (l : list (age * pyval)) (i j : nat) (x y : age * pyval) :
  descending l -> (i < j)%nat -> l !! i = Some x -> l !! j = Some y ->
  age_lt (fst x) (fst y) = Ok false.
Proof.
  revert i j. induction l as [| z l IH]; intros i j Hd Hij Hi Hj; [done |].
  destruct j as [| j]; [lia |]. destruct i as [| i].
  - simpl in Hi, Hj. injection Hi as ->.
    pose proof (descending_head x l Hd) as Hall.
    rewrite Forall_forall in Hall. apply Hall.
    by apply list_elem_of_lookup_2 in Hj.
  - simpl in Hi, Hj. destruct Hd as [_ Hd]. apply (IH i j); [done | lia | done | done].
Qed.

Lemma keyed_created (doc : pyval) (c : date) :
  created_of doc = Some c ->
  fst (keyed doc) = Days (toordinal today - toordinal c) /\ valid_date c = true.
Proof.
  unfold created_of, keyed. simpl.
  destruct (field "created_date" doc); try done. simpl. unfold age_of_string.
  intros H. rewrite H. split; [done | by apply (strptime_valid s)].
Qed.

(** X19: the later the date, the smaller the age: of two date strings that
    parse, the one of the later date has the strictly smaller age. *)
Theorem later_date_smaller_age (s1 s2 : string) (d1 d2 : date) :
  strptime_ymd s1 = Some d1 ->
  strptime_ymd s2 = Some d2 ->
  date_lt d1 d2 ->
  exists n1 n2,
    calculate_age today (VStr s1) = Ok (Days n1) /\
    calculate_age today (VStr s2) = Ok (Days n2) /\
    n2 < n1.
Proof.
  intros H1 H2 Hlt.
  exists (toordinal today - toordinal d1), (toordinal today - toordinal d2).
  rewrite !calculate_age_str. unfold age_of_string. rewrite H1, H2.
  split; [done |]. split; [done |].
  pose proof (toordinal_lt d1 d2 (strptime_valid _ _ H1) (strptime_valid _ _ H2) Hlt).
  lia.
Qed.

(** X10: the report lists the oldest documents first: in the sorted list
    no document whose date parses stands before a document of an earlier
    date. *)
Theorem sorted_oldest_first (docs sd : list pyval) (i j : nat)
  (a b : pyval) (ca cb : date) :
  sorted_docs docs = Ok sd ->
  (i < j)%nat ->
  sd !! i = Some a -> sd !! j = Some b ->
  created_of a = Some ca -> created_of b = Some cb ->
  ~ date_lt cb ca.
Proof.
  intros Hsd Hij Ha Hb Hca Hcb Hlt.
  pose proof (sorted_docs_descending docs sd Hsd) as Hd.
  assert (Hkey : age_lt (fst (keyed a)) (fst (keyed b)) = Ok false).
  { apply (descending_pairs (map keyed sd) i j (keyed a) (keyed b) Hd Hij).
    - by rewrite list_lookup_fmap, Ha.
    - by rewrite list_lookup_fmap, Hb. }
  destruct (keyed_created a ca Hca) as [Hka Hva].
  destruct (keyed_created b cb Hcb) as [Hkb Hvb].
  rewrite Hka, Hkb in Hkey. simpl in Hkey. injection Hkey as Hkey.
  apply Z.ltb_ge in Hkey.
  pose proof (toordinal_lt cb ca Hvb Hva Hlt). lia.
Qed.

(** *** The subject and the items *)

Lemma filter_length_perm {A} (f : A -> bool) (l l' : list A) :
  l ≡ₚ l' -> length (List.filter f l) = length (List.filter f l').
Proof.
  induction 1 as [| x l l' _ IH | x y l | l l' l'' _ IH1 _ IH2]; simpl.
  - done.
  - destruct (f x); simpl; by rewrite IH.
  - destruct (f x), (f y); done.
  - by rewrite IH1.
Qed.

Lemma forallb_perm {A} (f : A -> bool) (l l' : list A) :
  l ≡ₚ l' -> forallb f l = true -> forallb f l' = true.
Proof.
  intros Hp H. apply forallb_forall. intros x Hx.
  rewrite forallb_forall in H. apply H.
  apply list_elem_of_In. rewrite Hp. by apply list_elem_of_In.
Qed.

(** X16: the subject line does not depend on the order of the documents;
    in particular it is the subject of the sorted list that the body
    renders. *)
Theorem subject_ignores_order (docs docs' : list pyval) :
  forallb datable docs = true ->
  (docs ≡ₚ docs' -> build_subject_line docs' = build_subject_line docs) /\
  (forall sd, sorted_docs docs = Ok sd ->
              build_subject_line sd = build_subject_line docs).
Proof.
  intros Hd.
  assert (Hperm : forall l, docs ≡ₚ l -> build_subject_line l = build_subject_line docs).
  { intros l Hp.
    rewrite (build_subject_line_datable docs Hd).
    rewrite (build_subject_line_datable l (forallb_perm _ _ _ Hp Hd)).
    unfold count_over.
    by rewrite (Permutation_length Hp), (filter_length_perm _ _ _ Hp). }
  split; [apply Hperm |].
  intros sd Hsd. apply Hperm. symmetry. by apply sorted_docs_perm.
Qed.

Lemma render_docs_length (corr_map tag_map : gmap hkey pyval) (docs : list pyval)
  (w w' : world) (lines : list string) :
  render_docs corr_map tag_map docs w = (Ok lines, w') ->
  (length lines <= length docs)%nat.
Proof.
  revert w w' lines. induction docs as [| doc docs IH]; intros w w' lines; simpl.
  - intros [= <- _]. simpl. lia.
  - destruct (process_doc corr_map tag_map doc w) as [[[line |] | e] w1].
    + unfold bind, ret.
      destruct (render_docs corr_map tag_map docs w1) as [[ls | x] w2] eqn:Hr; [| done].
      intros [= <- _]. simpl. specialize (IH w1 w2 ls Hr). lia.
    + intros H. specialize (IH w1 w' lines H). lia.
    + unfold bind. destruct (report_failure doc e w1) as [[[] | x] w2]; [| done].
      intros H. specialize (IH w2 w' lines H). lia.
Qed.

(** X17: the list of a body is never empty, and has no more items than
    there are documents, or one item when there are none. *)
Theorem report_has_items (docs : list pyval) (correspondents : list correspondent)
  (tag_map : gmap hkey pyval) (w w' : world) (items : list string) :
  build_html_items docs correspondents tag_map w = (Ok items, w') ->
  items <> [] /\ (length items <= Nat.max 1 (length docs))%nat.
Proof.
  unfold build_html_items, bind, lift, ret.
  destruct (build_corr_map correspondents) as [cm | e]; [| done].
  destruct (sorted_docs docs) as [sd | e] eqn:Hsd; [| done].
  destruct (render_docs cm tag_map sd w) as [[lines | e] w1] eqn:Hr; [| done].
  intros [= <- _].
  pose proof (render_docs_length _ _ _ _ _ _ Hr) as Hlen.
  rewrite (Permutation_length (sorted_docs_perm docs sd Hsd)) in Hlen.
  destruct lines; simpl in *; split; try done; lia.
Qed.


(** *** The requests of the report *)

Lemma safe_request_ok (url : pyval) (w : world) :
  exists data, safe_request url w = (Ok data, snd (safe_request url w)).
Proof.
  unfold safe_request, bind, debug_print, print, sent, ret. simpl.
  destruct (http_get (requests w) url); eauto.
Qed.

Lemma get_document_details_requests (doc_id : pyval) (w : world) :
  requests (snd (get_document_details doc_id w))
  = (requests w ++ [VStr (MYURL +:+ "/api/documents/" +:+ str doc_id +:+ "/")])%list.
Proof.
  unfold get_document_details, bind.
  destruct (safe_request_ok
              (VStr (MYURL +:+ "/api/documents/" +:+ str doc_id +:+ "/")) w)
    as [data Hreq].
  rewrite Hreq. rewrite <- safe_request_requests.
  destruct (negb (truthy data)); [done |]. unfold lift, ret.
  destruct (py_get data "original_file_name" _); [| done].
  destruct (py_get data "archived_file_name" _); [| done].
  destruct (py_get data "created_date" _); done.
Qed.

(** One document costs no request or its detail request; an item costs
    the request. *)
Lemma process_doc_requests (corr_map tag_map : gmap hkey pyval) (doc : pyval)
  (w : world) :
  (requests (snd (process_doc corr_map tag_map doc w)) = requests w /\
   forall line, fst (process_doc corr_map tag_map doc w) <> Ok (Some line)) \/
  (requests (snd (process_doc corr_map tag_map doc w))
   = (requests w ++ [detail_request doc])%list /\
   truthy (field "id" doc) = true).
Proof.
  unfold process_doc, bind, lift, ret.
  destruct doc as [| | | | | e]; try (by left).
  simpl py_get. cbv iota beta.
  destruct (truthy (match assoc "id" e with Some v => v | None => VNone end))
    eqn:Hid; [| by left].
  destruct (map_get corr_map _ _) as [corr_name | x]; [| by left].
  change (negb true) with false. cbv iota.
  right. split; [| exact Hid].
  pose proof (get_document_details_requests
                (match assoc "id" e with Some v => v | None => VNone end) w) as Hreq.
  destruct (get_document_details _ w) as [[[[o a] c] | x] w1]; simpl in Hreq; [| done].
  destruct (calculate_age today c); [| done].
  destruct (tags_string tag_map _); done.
Qed.

Lemma report_failure_requests (doc : pyval) (e : exn) (w : world) :
  requests (snd (report_failure doc e w)) = requests w.
Proof.
  unfold report_failure, bind, lift, print.
  destruct (py_get doc "id" (VStr "unknown")); done.
Qed.

Lemma render_docs_requests (corr_map tag_map : gmap hkey pyval)
  (docs : list pyval) (w w' : world) (r : outcome (list string)) :
  render_docs corr_map tag_map docs w = (r, w') ->
  exists fetched,
    sublist fetched docs /\
    requests w' = (requests w ++ map detail_request fetched)%list /\
    Forall (fun d => truthy (field "id" d) = true) fetched /\
    (forall lines, r = Ok lines -> (length lines <= length fetched)%nat).
Proof.
  revert w w' r. induction docs as [| doc docs IH]; intros w w' r; simpl.
  - intros [= <- <-]. exists []. rewrite app_nil_r.
    repeat split; try done. intros lines [= <-]. simpl. lia.
  - pose proof (process_doc_requests corr_map tag_map doc w) as Hp.
    destruct (process_doc corr_map tag_map doc w) as [[[line |] | e] w1];
      simpl in Hp.
    + destruct Hp as [[_ Hno] | [Hreq Hid]]; [by destruct (Hno line) |].
      unfold bind, ret.
      destruct (render_docs corr_map tag_map docs w1) as [[ls | x] w2] eqn:Hr;
        intros [= <- <-]; destruct (IH _ _ _ Hr) as (f & Hsub & Hreqs & Hids & Hlen);
        exists (doc :: f); (split; [by constructor |]);
        (split; [rewrite Hreqs, Hreq, <- app_assoc; done |]);
        (split; [by constructor |]).
      * intros lines [= <-]. simpl. specialize (Hlen ls eq_refl). lia.
      * by intros lines [=].
    + intros Hr. destruct (IH _ _ _ Hr) as (f & Hsub & Hreqs & Hids & Hlen).
      destruct Hp as [[Hreq _] | [Hreq Hid]].
      * exists f. split; [by constructor |]. split; [by rewrite Hreqs, Hreq |].
        done.
      * exists (doc :: f). split; [by constructor |].
        split; [rewrite Hreqs, Hreq, <- app_assoc; done |].
        split; [by constructor |].
        intros lines Hl. specialize (Hlen lines Hl). simpl. lia.
    + unfold bind. pose proof (report_failure_requests doc e w1) as Hrep.
      destruct (report_failure doc e w1) as [[[] | x] w2]; simpl in Hrep.
      * intros Hr. destruct (IH _ _ _ Hr) as (f & Hsub & Hreqs & Hids & Hlen).
        destruct Hp as [[Hreq _] | [Hreq Hid]].
        -- exists f. split; [by constructor |].
           split; [by rewrite Hreqs, Hrep, Hreq |]. done.
        -- exists (doc :: f). split; [by constructor |].
           split; [rewrite Hreqs, Hrep, Hreq, <- app_assoc; done |].
           split; [by constructor |].
           intros lines Hl. specialize (Hlen lines Hl). simpl. lia.
      * intros [= <- <-].
        destruct Hp as [[Hreq _] | [Hreq Hid]].
        -- exists []. split; [apply sublist_nil_l |].
           split; [by rewrite Hrep, Hreq, app_nil_r |]. by split.
        -- exists [doc]. split; [constructor; apply sublist_nil_l |].
           split; [by rewrite Hrep, Hreq |]. split; [by repeat constructor |].
           by intros lines [=].
Qed.

(** X11: [build_html_body] requests nothing but detail pages of documents
    of the list, each document at most once and only with a truthy id; a
    report built without a request consists of the placeholder, and another
    report has at most as many items as requests were sent. *)
Theorem report_requests_details_only (docs : list pyval)
  (correspondents : list correspondent) (tag_map : gmap hkey pyval)
  (w w' : world) (r : outcome (list string)) :
  build_html_items docs correspondents tag_map w = (r, w') ->
  exists fetched,
    fetched ⊆+ docs /\
    requests w' = (requests w ++ map detail_request fetched)%list /\
    Forall (fun d => truthy (field "id" d) = true) fetched /\
    (forall items,
       r = Ok items ->
       match fetched with
       | [] => items = ["<li>No documents found.</li>"]
       | _ => (length items <= length fetched)%nat
       end).
Proof.
  unfold build_html_items, bind, lift, ret.
  assert (Hnone : forall x : exn,
            (Raise x, w) = (r, w') ->
            exists fetched,
              fetched ⊆+ docs /\
              requests w' = (requests w ++ map detail_request fetched)%list /\
              Forall (fun d => truthy (field "id" d) = true) fetched /\
              (forall items,
                 r = Ok items ->
                 match fetched with
                 | [] => items = ["<li>No documents found.</li>"]
                 | _ => (length items <= length fetched)%nat
                 end)).
  { intros x [= <- <-]. exists []. split; [apply submseteq_nil_l |].
    split; [by rewrite app_nil_r |]. split; [done |]. by intros items [=]. }
  destruct (build_corr_map correspondents) as [cm | x]; [| apply Hnone].
  destruct (sorted_docs docs) as [sd | x] eqn:Hsd; [| apply Hnone].
  destruct (render_docs cm tag_map sd w) as [r1 w1] eqn:Hr.
  destruct (render_docs_requests _ _ _ _ _ _ Hr) as (f & Hsub & Hreqs & Hids & Hlen).
  assert (Hms : f ⊆+ docs).
  { rewrite <- (sorted_docs_perm docs sd Hsd). by apply sublist_submseteq. }
  destruct r1 as [lines | x].
  - intros [= <- <-]. exists f. split; [exact Hms |]. split; [exact Hreqs |].
    split; [exact Hids |]. intros items [= <-].
    specialize (Hlen lines eq_refl).
    destruct f as [| d f]; simpl in *.
    + destruct lines; [done | simpl in Hlen; lia].
    + destruct lines; simpl in *; lia.
  - intros [= <- <-]. exists f. split; [exact Hms |]. split; [exact Hreqs |].
    split; [exact Hids |]. by intros items [=].
Qed.


(** *** More on the pages of tags *)

Lemma tags_loop_cycle (p : pyval) :
  (forall history, http_get history (VStr (MYURL +:+ "/api/tags/")) = Response p) ->
  tags_page_ok p = true ->
  field "next" p = VStr (MYURL +:+ "/api/tags/") ->
  forall fuel m w, tags_loop fuel (VStr (MYURL +:+ "/api/tags/")) m w = None.
Proof.
  intros Hget Hp Hnext. pose proof tags_url_truthy as Hu.
  pose proof (fun w => safe_request_response _ _ w (Hget (requests w))) as Hreq.
  set (url := VStr (MYURL +:+ "/api/tags/")) in *. clearbody url.
  induction fuel as [| fuel IH]; intros m w; simpl.
  - by rewrite Hu.
  - rewrite Hu, Hreq, (tags_page_ok_truthy p Hp). simpl.
    rewrite (tags_page_spec p m Hp), Hnext. apply IH.
Qed.

(** X12: when the first page of tags names itself as [next], the loop of
    [get_tags_map] never ends: no amount of fuel gives a result. *)
Theorem cyclic_pagination_never_ends (p : pyval) (fuel : nat) (w : world) :
  (forall history, http_get history (VStr (MYURL +:+ "/api/tags/")) = Response p) ->
  tags_page_ok p = true ->
  field "next" p = VStr (MYURL +:+ "/api/tags/") ->
  get_tags_map fuel w = None.
Proof.
  intros Hget Hp Hnext. unfold get_tags_map.
  by rewrite (tags_loop_cycle p Hget Hp Hnext).
Qed.

Lemma tags_loop_reads (w w' : world) (url url' : pyval) (pages : list pyval) :
  reads w url pages w' url' ->
  forall fuel m,
    tags_loop (length pages + fuel) url m w
    = tags_loop fuel url' (fold_left add_page pages m) w'.
Proof.
  induction 1 as [w url | w url p w1 pages w2 url2 Hu Hreq Hp _ IH]; intros fuel m.
  - reflexivity.
  - simpl. rewrite Hu, Hreq, (tags_page_ok_truthy p Hp). simpl.
    rewrite (tags_page_spec p m Hp). apply IH.
Qed.

(** X13: a page of tags that is truthy but no JSON object (a JSON list,
    say) makes [get_tags_map] raise an [AttributeError]: the tags of the
    pages read before it are not returned, and no number of tags is
    printed. *)
Theorem malformed_page_discards_tags (pages : list pyval) (w w1 w2 : world)
  (url : pyval) (data : pyval) (fuel : nat) :
  reads w (VStr (MYURL +:+ "/api/tags/")) pages w1 url ->
  truthy url = true ->
  safe_request url w1 = (Ok data, w2) ->
  truthy data = true ->
  is_dict data = false ->
  (length pages < fuel)%nat ->
  get_tags_map fuel w = Some (Raise (AttributeError data), w2).
Proof.
  intros Hreads Hu Hreq Ht Hd Hfuel. unfold get_tags_map.
  replace fuel with (length pages + S (fuel - length pages - 1))%nat by lia.
  rewrite (tags_loop_reads _ _ _ _ _ Hreads). simpl.
  rewrite Hu, Hreq, Ht. simpl.
  unfold tags_page. destruct data; done.
Qed.

Lemma lookup_reverse_pairs (l1 l2 : list (hkey * pyval)) (k : hkey) (v : pyval) :
  k ∉ l2.*1 ->
  (list_to_map (reverse (l1 ++ (k, v) :: l2)) : gmap hkey pyval) !! k = Some v.
Proof.
  intros Hk. rewrite reverse_app, reverse_cons, <- app_assoc.
  rewrite list_to_map_app. apply lookup_union_Some_raw. right. split.
  - apply not_elem_of_list_to_map. rewrite fmap_reverse. by rewrite elem_of_reverse.
  - simpl. apply lookup_insert_eq.
Qed.

Lemma add_pages_keep (pages : list pyval) (m : gmap hkey pyval) (k : hkey) :
  (forall q, q ∈ pages -> k ∉ (page_pairs q).*1) ->
  fold_left add_page pages m !! k = m !! k.
Proof.
  revert m. induction pages as [| q pages IH]; intros m H; simpl; [done |].
  rewrite IH by (intros q' Hq'; by apply H, list_elem_of_further).
  unfold add_page. apply lookup_union_r. unfold page_tags.
  apply not_elem_of_list_to_map. rewrite fmap_reverse, elem_of_reverse.
  apply H, list_elem_of_here.
Qed.

(** X14: an id that several records carry gets the name of the last one:
    the result of [get_tags_map] maps an id to the name of the last record
    of the last page that has the id. *)
Theorem last_record_names_the_tag (pre post : list pyval) (p : pyval)
  (l1 l2 : list (hkey * pyval)) (k : hkey) (v : pyval)
  (w w' : world) (fuel : nat) :
  pagination w (VStr (MYURL +:+ "/api/tags/")) (pre ++ p :: post) w' ->
  (length (pre ++ p :: post) < fuel)%nat ->
  page_pairs p = (l1 ++ (k, v) :: l2)%list ->
  k ∉ l2.*1 ->
  (forall q, q ∈ post -> k ∉ (page_pairs q).*1) ->
  exists all_tags w'',
    get_tags_map fuel w = Some (Ok all_tags, w'') /\ all_tags !! k = Some v.
Proof.
  intros Hpag Hfuel Hp Hk Hpost. unfold get_tags_map.
  rewrite (tags_loop_pagination _ _ _ _ Hpag fuel ∅ Hfuel).
  eexists _, _. split; [reflexivity |].
  rewrite fold_left_app. simpl. rewrite (add_pages_keep post _ k Hpost).
  unfold add_page at 1. apply lookup_union_Some_raw. left.
  unfold page_tags. rewrite Hp. by apply lookup_reverse_pairs.
Qed.

(** *** What [strptime] reads *)

Lemma two_digits_length (lo1 hi1 lo2 hi2 : Z) (l r : list ascii) (v : Z) :
  (v, r) ∈ two_digits lo1 hi1 lo2 hi2 l -> length l = (2 + length r)%nat.
Proof.
  unfold two_digits. destruct l as [| a [| b l]]; try (by intros ?%elem_of_nil).
  destruct (digit_in lo1 hi1 a), (digit_in lo2 hi2 b);
    try (by intros ?%elem_of_nil).
  intros [= _ <-]%list_elem_of_singleton. reflexivity.
Qed.

Lemma one_digit_length (lo hi : Z) (l r : list ascii) (v : Z) :
  (v, r) ∈ one_digit lo hi l -> length l = (1 + length r)%nat.
Proof.
  unfold one_digit. destruct l as [| a l]; try (by intros ?%elem_of_nil).
  destruct (digit_in lo hi a); try (by intros ?%elem_of_nil).
  intros [= _ <-]%list_elem_of_singleton. reflexivity.
Qed.

Lemma match_month_length (l r : list ascii) (v : Z) :
  (v, r) ∈ match_month l ->
  (1 + length r <= length l <= 2 + length r)%nat.
Proof.
  unfold match_month. rewrite !elem_of_app.
  intros [H | [H | H]];
    [apply two_digits_length in H | apply two_digits_length in H
     | apply one_digit_length in H]; lia.
Qed.

Lemma match_day_length (l r : list ascii) (v : Z) :
  (v, r) ∈ match_day l ->
  (1 + length r <= length l <= 2 + length r)%nat.
Proof.
  unfold match_day. rewrite !elem_of_app.
  intros [H | [H | [H | [H | H]]]];
    try (apply two_digits_length in H; lia);
    try (apply one_digit_length in H; lia).
  unfold space_digit in H. destruct l as [| c l]; [by apply elem_of_nil in H |].
  destruct (ascii_dec c " ") as [-> | Hc].
  - apply one_digit_length in H. simpl. lia.
  - revert H. destruct c as [[] [] [] [] [] [] [] []];
      try (by intros ?%elem_of_nil). by destruct Hc.
Qed.

Lemma expect_dash_length (l r : list ascii) :
  expect_dash l = Some r -> length l = (1 + length r)%nat.
Proof.
  unfold expect_dash. destruct l as [| c l]; [done |].
  destruct c as [[] [] [] [] [] [] [] []]; try done. by intros [= <-].
Qed.

Lemma match_rest_length (y : Z) (ms : list (Z * list ascii))
  (d : date) (r : list ascii) :
  match_rest y ms = Some (d, r) ->
  exists m r1, (m, r1) ∈ ms /\ (2 + length r <= length r1 <= 3 + length r)%nat.
Proof.
  induction ms as [| [m r1] ms IH]; simpl; [done |].
  assert (Hnext : match_rest y ms = Some (d, r) ->
                  exists m' r1', (m', r1') ∈ (m, r1) :: ms /\
                    (2 + length r <= length r1' <= 3 + length r)%nat).
  { intros H. destruct (IH H) as (m' & r1' & Hin & Hlen).
    exists m', r1'. split; [by apply list_elem_of_further | done]. }
  destruct (expect_dash r1) as [r' |] eqn:Hdash; [| exact Hnext].
  destruct (match_day r') as [| [dd r''] ds] eqn:Hday; [exact Hnext |].
  intros [= _ <-]. exists m, r1. split; [apply list_elem_of_here |].
  apply expect_dash_length in Hdash.
  assert (Hin : (dd, r'') ∈ match_day r') by (rewrite Hday; apply list_elem_of_here).
  apply match_day_length in Hin. lia.
Qed.

Lemma match_year_length (l r : list ascii) (y : Z) :
  match_year l = Some (y, r) -> length l = (4 + length r)%nat.
Proof.
  unfold match_year. destruct l as [| a [| b [| c [| d l]]]]; try done.
  destruct (digit_val a), (digit_val b), (digit_val c), (digit_val d); try done.
  by intros [= _ <-].
Qed.

Lemma chars_length (s : string) : length (chars s) = String.length s.
Proof. unfold chars. induction s as [| c s IH]; simpl; [done |]. by rewrite IH. Qed.

Lemma strptime_length (s : string) (d : date) :
  strptime_ymd s = Some d -> (8 <= String.length s <= 10)%nat.
Proof.
  unfold strptime_ymd, regex_match.
  rewrite <- (chars_length s).
  destruct (match_year (chars s)) as [[y r] |] eqn:Hy; [| done].
  destruct (expect_dash r) as [r' |] eqn:Hdash; [| done].
  destruct (match_rest y (match_month r')) as [[d' rest] |] eqn:Hrest; [| done].
  destruct rest; [| done]. intros _.
  apply match_year_length in Hy. apply expect_dash_length in Hdash.
  destruct (match_rest_length _ _ _ _ Hrest) as (m & r1 & Hin & Hlen).
  apply match_month_length in Hin. simpl in Hlen. lia.
Qed.

(** X15: a string of less than 8 or more than 10 characters, such as a
    date with a time of day, has the age ["N/A"]. *)
Theorem timestamps_have_no_age (s : string) :
  (String.length s < 8 \/ 10 < String.length s)%nat ->
  calculate_age today (VStr s) = Ok NA.
Proof.
  intros Hlen. rewrite calculate_age_str. unfold age_of_string.
  destruct (strptime_ymd s) as [d |] eqn:Hs; [| done].
  apply strptime_length in Hs. lia.
Qed.


Lemma safe_request_requests_eq (url data : pyval) (w w1 : world) :
  safe_request url w = (Ok data, w1) -> requests w1 = (requests w ++ [url])%list.
Proof.
  intros H. rewrite <- safe_request_requests. by rewrite H.
Qed.

(** X18: along a pagination [get_tags_map] requests the tags URL and then
    every truthy [next] link, in this order, and nothing else. *)
Theorem tags_requests_follow_next (pages : list pyval) (w w' : world) (fuel : nat) :
  pagination w (VStr (MYURL +:+ "/api/tags/")) pages w' ->
  (length pages < fuel)%nat ->
  exists all_tags w'',
    get_tags_map fuel w = Some (Ok all_tags, w'') /\
    requests w''
    = (requests w
         ++ List.filter truthy
              (VStr (MYURL +:+ "/api/tags/") :: map (field "next") pages))%list.
Proof.
  intros Hpag Hfuel. unfold get_tags_map.
  rewrite (tags_loop_pagination _ _ _ _ Hpag fuel ∅ Hfuel).
  eexists _, _. split; [reflexivity |]. simpl requests.
  clear Hfuel.
  induction Hpag as [w url Hu | w url data w1 Hu Hreq Hd
                    | w url p w1 pages w2 Hu Hreq Hp _ IH].
  - simpl. rewrite Hu. by rewrite app_nil_r.
  - simpl. rewrite Hu. by apply (safe_request_requests_eq url data).
  - rewrite IH. rewrite (safe_request_requests_eq url p w w1 Hreq).
    simpl. rewrite Hu. by rewrite <- app_assoc.
Qed.


(** *** The dictionary of correspondents *)

Lemma fold_corr_keep (cs : list correspondent) (m : gmap hkey pyval) (k : hkey) :
  Forall (fun c => key_of (corr_id c) <> k) cs ->
  fold_left (fun m c => <[key_of (corr_id c) := corr_name c]> m) cs m !! k = m !! k.
Proof.
  revert m. induction cs as [| c cs IH]; intros m H; simpl; [done |].
  apply Forall_cons in H as [Hc Hcs].
  rewrite (IH _ Hcs). by apply lookup_insert_ne.
Qed.

(** X20: the dictionary that [build_html_body] builds maps the id of a
    correspondent to the name of the last correspondent of that id, and
    this is the name a document of this correspondent is rendered with. *)
Theorem last_correspondent_names_the_id (before after : list correspondent)
  (i n : pyval) :
  forallb (fun c => hashable (corr_id c)) (before ++ mkcorr i n :: after) = true ->
  Forall (fun c => key_of (corr_id c) <> key_of i) after ->
  exists corr_map,
    build_corr_map (before ++ mkcorr i n :: after) = Ok corr_map /\
    corr_map !! key_of i = Some n /\
    map_get corr_map i (VStr "No Correspondent") = Ok n.
Proof.
  intros Hh Hafter. exists (corr_map_of (before ++ mkcorr i n :: after)).
  split; [by apply build_corr_map_hashable |].
  assert (Hlookup : corr_map_of (before ++ mkcorr i n :: after) !! key_of i = Some n).
  { unfold corr_map_of. rewrite fold_left_app. simpl.
    rewrite (fold_corr_keep after _ _ Hafter). apply lookup_insert_eq. }
  split; [exact Hlookup |].
  rewrite forallb_app in Hh. simpl in Hh.
  apply andb_true_iff in Hh as [_ [Hi _]%andb_true_iff].
  unfold map_get. rewrite (to_key_hashable i Hi). by rewrite Hlookup.
Qed.

End Script.

(** ** The model on sample data *)

Example strptime_accepts :
  map strptime_ymd ["2020-01-01"; "2020-1-1"; "2020-02-29"; "2020-12- 5"; "9999-12-31"]
  = [Some (mkdate 2020 1 1); Some (mkdate 2020 1 1); Some (mkdate 2020 2 29);
     Some (mkdate 2020 12 5); Some (mkdate 9999 12 31)].
Proof. reflexivity. Qed.

Example strptime_refuses :
  map strptime_ymd ["2021-02-29"; "0000-01-01"; "2020-13-01"; "2020-01-011";
                    "20-01-01"; " 2020-01-01"; "2020/01/01"; "2020-01-01T10:00:00";
                    "2020-00-10"; "2020-04-31"; "yesterday"]
  = repeat None 11.
Proof. reflexivity. Qed.

Example calculate_age_raises_on_a_number :
  calculate_age sample_today (VInt 20200101)
  = Raise (TypeError (StrptimeArg (VInt 20200101))).
Proof. reflexivity. Qed.

Example sort_is_stable_and_descending :
  sorted_docs sample_today [doc_31; doc_old; doc_future; doc_null_tags]
  = Ok [doc_old; doc_null_tags; doc_31; doc_future].
Proof. reflexivity. Qed.

Example sort_keeps_undated_documents_in_place :
  sorted_docs sample_today [doc_undated; doc_bad_date]
  = Ok [doc_undated; doc_bad_date].
Proof. reflexivity. Qed.

Example subject_of_mixed_documents :
  build_subject_line sample_today
    [doc_old; doc_31; doc_undated; doc_future; doc_no_id; doc_bad_date]
  = Ok "6 - files in need of attendance (3 over 30days)".
Proof. reflexivity. Qed.

Example unhashable_correspondent_aborts :
  build_html_items sample_url sample_today sample_http sample_repr sample_text
    [] [mkcorr (VList [VInt 1]) (VStr "ACME")] sample_tag_map world0
  = (Raise (TypeError (Unhashable (VList [VInt 1]))), world0).
Proof. reflexivity. Qed.

Example true_is_the_key_one :
  map_get sample_tag_map (VBool true) (VStr "Tag-True") = Ok (VStr "inbox").
Proof. reflexivity. Qed.

Example tags_of_a_document :
  map (tags_string sample_repr sample_tag_map)
    [VList [VInt 3; VInt 1; VStr "x"]; VList []; VStr "13"; VNone]
  = [Ok "todo, inbox, Tag-x"; Ok "None"; Ok "Tag-1, Tag-3";
     Raise (TypeError (NotIterable VNone))].
Proof. reflexivity. Qed.

(** ** The statements at concrete inputs *)

Lemma calculate_age_cases_witness :
  valid_date sample_today = true /\
  valid_date (mkdate 2020 1 1) = true /\
  valid_date (tomorrow (mkdate 2020 1 1)) = true /\
  calculate_age sample_today VNone = Ok NA /\
  calculate_age sample_today (VStr "") = Ok NA /\
  calculate_age sample_today (VStr "2020-13-01") = Ok NA /\
  calculate_age sample_today (VStr "2020-01-01") = Ok (Days 1849) /\
  calculate_age sample_today (VStr "2025-01-23") = Ok (Days 0) /\
  calculate_age sample_today (VStr "2020-01-02") = Ok (Days 1848).
Proof.
  do 3 (split; [reflexivity |]).
  destruct (calculate_age_cases sample_today "2020-13-01" (mkdate 2020 1 1)
              eq_refl eq_refl eq_refl)
    as (H1 & H2 & H3 & H4 & H5 & H6).
  repeat split; assumption.
Defined.


Lemma future_date_negative_age_witness :
  valid_date sample_today = true /\
  strptime_ymd "2025-02-01" = Some (mkdate 2025 2 1) /\
  date_lt sample_today (mkdate 2025 2 1) /\
  exists n : Z,
    calculate_age sample_today (VStr "2025-02-01") = Ok (Days n) /\ n < 0 /\
    format_age (Days n) = str_int n /\
    (forall doc, py_get doc "created_date" VNone = Ok (VStr "2025-02-01") ->
                 over_30 sample_today doc = Ok false /\
                 build_subject_line sample_today [doc] = Ok (subject 1 0)).
Proof.
  assert (Hlt : date_lt sample_today (mkdate 2025 2 1)).
  { unfold date_lt. simpl. right. split; [reflexivity |]. left. lia. }
  split; [reflexivity |]. split; [reflexivity |]. split; [exact Hlt |].
  exact (future_date_negative_age sample_today "2025-02-01" (mkdate 2025 2 1)
           eq_refl eq_refl Hlt).
Defined.


Lemma mixed_ages_abort_report_witness :
  doc_old ∈ [doc_old; doc_undated] /\
  doc_undated ∈ [doc_old; doc_undated] /\
  doc_age sample_today doc_old = Ok (Days 1849) /\
  doc_age sample_today doc_undated = Ok NA /\
  exists e,
    build_html_body sample_url sample_today sample_http sample_repr sample_text
      [doc_old; doc_undated] sample_correspondents sample_tag_map world0
    = (Raise e, world0).
Proof.
  assert (H1 : doc_old ∈ [doc_old; doc_undated]) by apply list_elem_of_here.
  assert (H2 : doc_undated ∈ [doc_old; doc_undated]).
  { apply list_elem_of_further, list_elem_of_here. }
  split; [exact H1 |]. split; [exact H2 |].
  split; [reflexivity |]. split; [reflexivity |].
  exact (mixed_ages_abort_report sample_url sample_today sample_http sample_repr
           sample_text [doc_old; doc_undated] sample_correspondents
           sample_tag_map world0 doc_old doc_undated 1849 H1 H2 eq_refl eq_refl).
Defined.


Lemma document_without_id_skipped_but_counted_witness :
  truthy (field "id" doc_no_id) = false /\
  forallb datable ([doc_31] ++ doc_no_id :: [doc_undated]) = true /\
  process_doc sample_url sample_today sample_http sample_repr
    (corr_map_of sample_correspondents) sample_tag_map doc_no_id world0
  = (Ok None, world0) /\
  build_subject_line sample_today [doc_31; doc_no_id; doc_undated]
  = Ok "3 - files in need of attendance (2 over 30days)".
Proof.
  split; [reflexivity |]. split; [reflexivity |].
  destruct (document_without_id_skipped_but_counted sample_url sample_today
              sample_http sample_repr sample_text sample_correspondents
              (corr_map_of sample_correspondents) sample_tag_map
              [doc_31] [doc_undated]
              [("id", VInt 0); ("created_date", VStr "2020-01-01")]
              world0 eq_refl eq_refl) as (H1 & _ & _ & H4).
  split; [exact H1 | exact H4].
Defined.

Lemma tags_accumulate_over_pages_witness :
  let w' :=
    mkworld
      [VStr "http://paperless:8000/api/tags/";
       VStr "http://paperless:8000/api/tags/?page=2";
       VStr "http://paperless:8000/api/tags/?page=3"]
      ["Requesting URL: http://paperless:8000/api/tags/";
       "Requesting URL: http://paperless:8000/api/tags/?page=2";
       "Requesting URL: http://paperless:8000/api/tags/?page=3";
       "Error fetching data from http://paperless:8000/api/tags/?page=3: 503 Server Error"] in
  let all_tags : gmap hkey pyval :=
    <[KInt 3 := VStr "todo"]> (<[KInt 1 := VStr "inbox"]> ∅) in
  pagination sample_http sample_repr world0 (VStr (sample_url +:+ "/api/tags/"))
    [sample_tags_page_1; sample_tags_page_2] w' /\
  (length [sample_tags_page_1; sample_tags_page_2] < 3)%nat /\
  get_tags_map sample_url sample_http sample_repr 3 world0
  = Some (Ok all_tags, printed w' "Found 2 tags across all pages.").
Proof.
  intros w' all_tags.
  assert (Hpag : pagination sample_http sample_repr world0
                   (VStr (sample_url +:+ "/api/tags/"))
                   [sample_tags_page_1; sample_tags_page_2] w').
  { eapply pagination_page; [reflexivity | reflexivity | reflexivity |].
    eapply pagination_page; [reflexivity | reflexivity | reflexivity |].
    eapply pagination_fail; [reflexivity | reflexivity | reflexivity]. }
  assert (Hfuel : (length [sample_tags_page_1; sample_tags_page_2] < 3)%nat)
    by (simpl; lia).
  split; [exact Hpag |]. split; [exact Hfuel |].
  exact (proj1 (tags_accumulate_over_pages sample_url sample_http sample_repr
                  [sample_tags_page_1; sample_tags_page_2] world0 w' 3 Hpag Hfuel)).
Defined.


Lemma unresolved_names_get_defaults_witness :
  let w1 :=
    mkworld [VStr "http://paperless:8000/api/documents/2/"]
            ["Requesting URL: http://paperless:8000/api/documents/2/"] in
  forallb (fun c => hashable (corr_id c)) sample_correspondents = true /\
  truthy (field "id" doc_stranger) = true /\
  hashable (field "correspondent" doc_stranger) = true /\
  corr_map_of sample_correspondents !! key_of (field "correspondent" doc_stranger)
  = None /\
  doc_tags_of doc_stranger = VList [VInt 1; VInt 7] /\
  forallb (tag_resolvable sample_tag_map) [VInt 1; VInt 7] = true /\
  get_document_details sample_url sample_http sample_repr (VInt 2) world0
  = (Ok (VStr "b.pdf", VStr "N/A", VStr "2024-12-23"), w1) /\
  calculate_age sample_today (VStr "2024-12-23") = Ok (Days 31) /\
  process_doc sample_url sample_today sample_http sample_repr
    (corr_map_of sample_correspondents) sample_tag_map doc_stranger world0
  = (Ok (Some "<br><li><a href='http://paperless:8000/documents/2/'><b>No Correspondent</b></a><br><b>Age (days)</b>: 31<br><b>Tags</b>: inbox, Tag-7<br><b>Original File</b>: b.pdf<br><b>Archived File</b>: N/A<br></li>"),
     w1) /\
  process_doc sample_url sample_today sample_http sample_repr
    (corr_map_of sample_correspondents) sample_tag_map doc_31 world0
  = (Ok (Some "<br><li><a href='http://paperless:8000/documents/2/'><b>No Correspondent</b></a><br><b>Age (days)</b>: 31<br><b>Tags</b>: None<br><b>Original File</b>: b.pdf<br><b>Archived File</b>: N/A<br></li>"),
     w1).
Proof.
  intros w1.
  do 8 (split; [reflexivity |]).
  split.
  - exact (proj1 (proj2
             (unresolved_names_get_defaults sample_url sample_today sample_http
                sample_repr sample_correspondents sample_tag_map
                [("id", VInt 2); ("created_date", VStr "2024-12-23");
                 ("correspondent", VInt 99); ("tags", VList [VInt 1; VInt 7])]
                [VInt 1; VInt 7] world0 w1
                (VStr "b.pdf") (VStr "N/A") (VStr "2024-12-23") (Days 31)
                eq_refl eq_refl (or_intror (conj eq_refl eq_refl))
                eq_refl eq_refl eq_refl eq_refl))).
  - exact (proj1 (proj2
             (unresolved_names_get_defaults sample_url sample_today sample_http
                sample_repr sample_correspondents sample_tag_map
                [("id", VInt 2); ("created_date", VStr "2024-12-23");
                 ("correspondent", VNone); ("tags", VList [])]
                [] world0 w1
                (VStr "b.pdf") (VStr "N/A") (VStr "2024-12-23") (Days 31)
                eq_refl eq_refl (or_introl (conj eq_refl eq_refl))
                eq_refl eq_refl eq_refl eq_refl))).
Defined.

(** ** The further statements at concrete inputs *)

Lemma get_correspondents_keeps_valid_records_witness :
  get_correspondents sample_url (listing_http (VList [])) sample_repr world0
  = (Ok [mkcorr (VInt 5) (VStr "ACME"); mkcorr (VInt 8) (VStr "Bank")],
     mkworld
       [VStr "http://paperless:8000/api/correspondents/?page_size=9999"]
       ["Requesting URL: http://paperless:8000/api/correspondents/?page_size=9999";
        "Found 2 correspondents."]).
Proof.
  exact (proj1 (get_correspondents_keeps_valid_records sample_url
                  (listing_http (VList [])) sample_repr _ _ world0
                  eq_refl eq_refl eq_refl)).
Defined.

Lemma fetchers_return_nothing_without_data_witness :
  (exists w1,
     get_correspondents sample_url down_http sample_repr world0 = (Ok [], w1) /\
     requests w1
     = [VStr "http://paperless:8000/api/correspondents/?page_size=9999"]) /\
  (exists w2,
     get_documents sample_url down_http sample_repr sample_searchpath world0
     = (Ok (VList []), w2) /\
     requests w2 = [VStr "http://paperless:8000/api/documents/?tags__id__all=1"]).
Proof.
  exact (fetchers_return_nothing_without_data sample_url down_http sample_repr
           sample_searchpath world0 eq_refl eq_refl).
Defined.

Lemma get_documents_results_witness :
  get_documents sample_url (listing_http (VList [doc_old; doc_undated]))
    sample_repr sample_searchpath world0
  = (Ok (VList [doc_old; doc_undated]),
     mkworld [VStr "http://paperless:8000/api/documents/?tags__id__all=1"]
       ["Requesting URL: http://paperless:8000/api/documents/?tags__id__all=1";
        "Found 2 documents."]) /\
  get_documents sample_url (listing_http VNone) sample_repr sample_searchpath world0
  = (Raise (TypeError (NotIterable VNone)),
     mkworld [VStr "http://paperless:8000/api/documents/?tags__id__all=1"]
       ["Requesting URL: http://paperless:8000/api/documents/?tags__id__all=1"]).
Proof.
  split.
  - exact (proj1 (proj2
             (get_documents_results sample_url
                (listing_http (VList [doc_old; doc_undated])) sample_repr
                sample_searchpath
                [("count", VInt 2); ("results", VList [doc_old; doc_undated])]
                world0 eq_refl ltac:(discriminate)))
             [doc_old; doc_undated] eq_refl).
  - exact (proj2 (proj2
             (get_documents_results sample_url (listing_http VNone) sample_repr
                sample_searchpath [("count", VInt 2); ("results", VNone)]
                world0 eq_refl ltac:(discriminate)))
             VNone eq_refl I).
Defined.

Lemma main_catches_everything_witness :
  exists s',
    main sample_url sample_today (listing_http VNone) sample_repr sample_text
      sample_searchpath sample_to sample_mail sample_mail_text 3 system0
    = Some (Ok tt, s') /\
    mailed s' = [] /\
    last (stdout (net s')) = Some "Error during execution: TypeError".
Proof.
  destruct (main sample_url sample_today (listing_http VNone) sample_repr
              sample_text sample_searchpath sample_to sample_mail
              sample_mail_text 3 system0) as [[r s'] |] eqn:Hmain;
    [| vm_compute in Hmain; discriminate Hmain].
  destruct (main_catches_everything sample_url sample_today (listing_http VNone)
              sample_repr sample_text sample_searchpath sample_to sample_mail
              sample_mail_text 3 system0 s' r Hmain) as [-> Herr].
  exists s'. split; [reflexivity |].
  edestruct Herr as [Hmailed Hnet]; [vm_compute; reflexivity |].
  split; [exact Hmailed |]. rewrite Hnet. reflexivity.
Defined.

Lemma unreachable_server_mails_empty_report_witness :
  exists s',
    main sample_url sample_today down_http sample_repr sample_text
      sample_searchpath sample_to sample_mail sample_mail_text 1 system0
    = Some (Ok tt, s') /\
    length (requests (net s')) = 3%nat /\
    mailed s'
    = [(mkmail "0 - files in need of attendance (0 over 30days)" "me@example.org"
          (html_page ["<li>No documents found.</li>"]), 0)].
Proof.
  destruct (unreachable_server_mails_empty_report sample_url sample_today
              down_http sample_repr sample_text sample_searchpath sample_to
              sample_mail sample_mail_text 1 system0 "me@example.org"
              (fun _ _ => eq_refl) (le_n 1) eq_refl) as (s' & Hmain & Hlen & Hmail).
  exists s'. split; [exact Hmain |]. split; [exact Hlen |].
  exact (Hmail 0 eq_refl).
Defined.

Lemma mixed_ages_send_no_mail_witness :
  exists s' e,
    main sample_url sample_today (listing_http (VList [doc_old; doc_undated]))
      sample_repr sample_text sample_searchpath sample_to sample_mail
      sample_mail_text 3 system0
    = Some (Ok tt, s') /\
    mailed s' = [] /\
    last (stdout (net s')) = Some ("Error during execution: " +:+ sample_text e).
Proof.
  pose (http := listing_http (VList [doc_old; doc_undated])).
  pose (r1 := get_correspondents sample_url http sample_repr
                (printed world0 "Starting script...")).
  pose (cs := match fst r1 with Ok c => c | Raise _ => [] end).
  pose (w1 := snd r1).
  assert (H1 : r1 = (Ok cs, w1)) by (vm_compute; reflexivity).
  pose (r2 := get_tags_map sample_url http sample_repr 3 w1).
  pose (tm := match r2 with Some (Ok t, _) => t | _ => ∅ end).
  pose (w2 := match r2 with Some (_, w) => w | None => world0 end).
  assert (H2 : r2 = Some (Ok tm, w2)) by (vm_compute; reflexivity).
  pose (r3 := get_documents sample_url http sample_repr sample_searchpath w2).
  pose (w3 := snd r3).
  assert (H3 : r3 = (Ok (VList [doc_old; doc_undated]), w3))
    by (vm_compute; reflexivity).
  destruct (mixed_ages_send_no_mail sample_url sample_today http sample_repr
              sample_text sample_searchpath sample_to sample_mail
              sample_mail_text 3 system0 w1 w2 w3 cs tm
              [doc_old; doc_undated] doc_old doc_undated 1849
              H1 H2 H3 (list_elem_of_here _ _)
              (list_elem_of_further _ _ _ (list_elem_of_here _ _))
              eq_refl eq_refl)
    as (s' & e & Hmain & Hmailed & _ & Hlast).
  exists s', e. split; [exact Hmain |]. split; [exact Hmailed | exact Hlast].
Defined.

Lemma failed_delivery_still_completes_witness :
  exists s',
    main sample_url sample_today down_http sample_repr sample_text
      sample_searchpath sample_to failing_mail sample_mail_text 1 system0
    = Some (Ok tt, s') /\
    last (stdout (net s')) = Some "Script completed successfully." /\
    mailed s'
    = [(mkmail "0 - files in need of attendance (0 over 30days)" "me@example.org"
          (html_page ["<li>No documents found.</li>"]), 1)].
Proof.
  edestruct (failed_delivery_still_completes sample_url sample_today down_http
               sample_repr sample_text sample_searchpath sample_to failing_mail
               sample_mail_text 1 system0) as (s' & Hmain & Hlast & Hfail).
  - vm_compute. reflexivity.
  - exists s'. split; [exact Hmain |]. split; [exact Hlast |].
    exact (proj1 (Hfail "me@example.org" 1 eq_refl eq_refl ltac:(discriminate))).
Defined.

Lemma sort_keeps_order_of_equal_ages_witness :
  sorted_docs sample_today [doc_31; doc_old; doc_future; doc_null_tags]
  = Ok [doc_old; doc_null_tags; doc_31; doc_future] /\
  of_age sample_today (Days 1849) [doc_old; doc_null_tags; doc_31; doc_future]
  = of_age sample_today (Days 1849) [doc_31; doc_old; doc_future; doc_null_tags].
Proof.
  split; [reflexivity |].
  exact (sort_keeps_order_of_equal_ages sample_today
           [doc_31; doc_old; doc_future; doc_null_tags]
           [doc_old; doc_null_tags; doc_31; doc_future] (Days 1849) eq_refl).
Defined.

Lemma sorted_oldest_first_witness :
  sorted_docs sample_today [doc_31; doc_old; doc_future; doc_null_tags]
  = Ok [doc_old; doc_null_tags; doc_31; doc_future] /\
  created_of doc_old = Some (mkdate 2020 1 1) /\
  created_of doc_31 = Some (mkdate 2024 12 23) /\
  ~ date_lt (mkdate 2024 12 23) (mkdate 2020 1 1).
Proof.
  do 3 (split; [reflexivity |]).
  exact (sorted_oldest_first sample_today
           [doc_31; doc_old; doc_future; doc_null_tags]
           [doc_old; doc_null_tags; doc_31; doc_future] 0 2 doc_old doc_31
           (mkdate 2020 1 1) (mkdate 2024 12 23)
           eq_refl ltac:(lia) eq_refl eq_refl eq_refl eq_refl).
Defined.

Lemma report_requests_details_only_witness :
  exists r w' fetched,
    build_html_items sample_url sample_today sample_http sample_repr sample_text
      [doc_31; doc_no_id; doc_null_tags] sample_correspondents sample_tag_map world0
    = (r, w') /\
    fetched ⊆+ [doc_31; doc_no_id; doc_null_tags] /\
    requests w' = map (detail_request sample_url sample_repr) fetched.
Proof.
  destruct (build_html_items sample_url sample_today sample_http sample_repr
              sample_text [doc_31; doc_no_id; doc_null_tags]
              sample_correspondents sample_tag_map world0) as [r w'] eqn:Hbuild.
  destruct (report_requests_details_only sample_url sample_today sample_http
              sample_repr sample_text [doc_31; doc_no_id; doc_null_tags]
              sample_correspondents sample_tag_map world0 w' r Hbuild)
    as (fetched & Hsub & Hreq & _).
  exists r, w', fetched. split; [reflexivity |]. split; [exact Hsub | exact Hreq].
Defined.

Lemma cyclic_pagination_never_ends_witness :
  tags_page_ok cyclic_page = true /\
  field "next" cyclic_page = VStr (sample_url +:+ "/api/tags/") /\
  get_tags_map sample_url cyclic_http sample_repr 1000 world0 = None.
Proof.
  split; [reflexivity |]. split; [reflexivity |].
  exact (cyclic_pagination_never_ends sample_url cyclic_http sample_repr
           cyclic_page 1000 world0 (fun _ => eq_refl) eq_refl eq_refl).
Defined.

Lemma malformed_page_discards_tags_witness :
  let w1 := answered world0 "http://paperless:8000/api/tags/" in
  let w2 := answered w1 "http://paperless:8000/api/tags/?page=2" in
  get_tags_map sample_url list_page_http sample_repr 2 world0
  = Some (Raise (AttributeError
                   (VList [VDict [("id", VInt 3); ("name", VStr "todo")]])), w2).
Proof.
  intros w1 w2.
  assert (Hreads : reads list_page_http sample_repr world0
                     (VStr (sample_url +:+ "/api/tags/"))
                     [sample_tags_page_1] w1
                     (VStr "http://paperless:8000/api/tags/?page=2")).
  { eapply reads_page; [reflexivity | reflexivity | reflexivity |].
    apply reads_nothing. }
  exact (malformed_page_discards_tags sample_url list_page_http sample_repr
           [sample_tags_page_1] world0 w1 w2
           (VStr "http://paperless:8000/api/tags/?page=2")
           (VList [VDict [("id", VInt 3); ("name", VStr "todo")]]) 2
           Hreads eq_refl eq_refl eq_refl eq_refl (le_n 2)).
Defined.

Lemma last_record_names_the_tag_witness :
  exists all_tags w'',
    get_tags_map sample_url renaming_http sample_repr 4 world0
    = Some (Ok all_tags, w'') /\
    all_tags !! KInt 1 = Some (VStr "new").
Proof.
  eapply (last_record_names_the_tag sample_url renaming_http sample_repr
            [sample_tags_page_1; sample_tags_page_2] [] sample_tags_page_3
            [(KInt 1, VStr "old")] [] (KInt 1) (VStr "new") world0 _ 4).
  - eapply pagination_page; [reflexivity | reflexivity | reflexivity |].
    eapply pagination_page; [reflexivity | reflexivity | reflexivity |].
    eapply pagination_page; [reflexivity | reflexivity | reflexivity |].
    apply pagination_end. reflexivity.
  - simpl. lia.
  - reflexivity.
  - simpl. apply not_elem_of_nil.
  - intros q Hq. by apply elem_of_nil in Hq.
Defined.

Lemma timestamps_have_no_age_witness :
  (10 < String.length "2024-01-15T10:30:00Z")%nat /\
  calculate_age sample_today (VStr "2024-01-15T10:30:00Z") = Ok NA.
Proof.
  assert (H : (10 < String.length "2024-01-15T10:30:00Z")%nat) by (simpl; lia).
  split; [exact H |].
  exact (timestamps_have_no_age sample_today "2024-01-15T10:30:00Z" (or_intror H)).
Defined.

Lemma subject_ignores_order_witness :
  forallb datable [doc_31; doc_old; doc_undated] = true /\
  build_subject_line sample_today [doc_undated; doc_31; doc_old]
  = build_subject_line sample_today [doc_31; doc_old; doc_undated].
Proof.
  split; [reflexivity |].
  exact (proj1 (subject_ignores_order sample_today [doc_31; doc_old; doc_undated]
                  [doc_undated; doc_31; doc_old] eq_refl)
           (Permutation_app_comm [doc_31; doc_old] [doc_undated])).
Defined.

Lemma report_has_items_witness :
  exists items w',
    build_html_items sample_url sample_today sample_http sample_repr sample_text
      [doc_no_id; doc_null_tags] sample_correspondents sample_tag_map world0
    = (Ok items, w') /\
    items <> [] /\ (length items <= Nat.max 1 2)%nat.
Proof.
  assert (H : exists items w',
             build_html_items sample_url sample_today sample_http sample_repr
               sample_text [doc_no_id; doc_null_tags] sample_correspondents
               sample_tag_map world0
             = (Ok items, w')).
  { eexists _, _. vm_compute. reflexivity. }
  destruct H as (items & w' & H). exists items, w'. split; [exact H |].
  exact (report_has_items sample_url sample_today sample_http sample_repr
           sample_text [doc_no_id; doc_null_tags] sample_correspondents
           sample_tag_map world0 w' items H).
Defined.

Lemma tags_requests_follow_next_witness :
  exists all_tags w'',
    get_tags_map sample_url sample_http sample_repr 3 world0
    = Some (Ok all_tags, w'') /\
    requests w''
    = [VStr "http://paperless:8000/api/tags/";
       VStr "http://paperless:8000/api/tags/?page=2";
       VStr "http://paperless:8000/api/tags/?page=3"].
Proof.
  eapply (tags_requests_follow_next sample_url sample_http sample_repr
            [sample_tags_page_1; sample_tags_page_2] world0 _ 3).
  - eapply pagination_page; [reflexivity | reflexivity | reflexivity |].
    eapply pagination_page; [reflexivity | reflexivity | reflexivity |].
    eapply pagination_fail; [reflexivity | reflexivity | reflexivity].
  - simpl. lia.
Defined.

Lemma later_date_smaller_age_witness :
  strptime_ymd "2020-01-01" = Some (mkdate 2020 1 1) /\
  strptime_ymd "2024-12-23" = Some (mkdate 2024 12 23) /\
  date_lt (mkdate 2020 1 1) (mkdate 2024 12 23) /\
  exists n1 n2,
    calculate_age sample_today (VStr "2020-01-01") = Ok (Days n1) /\
    calculate_age sample_today (VStr "2024-12-23") = Ok (Days n2) /\
    n2 < n1.
Proof.
  assert (Hlt : date_lt (mkdate 2020 1 1) (mkdate 2024 12 23)).
  { unfold date_lt. simpl. left. lia. }
  split; [reflexivity |]. split; [reflexivity |]. split; [exact Hlt |].
  exact (later_date_smaller_age sample_today "2020-01-01" "2024-12-23"
           (mkdate 2020 1 1) (mkdate 2024 12 23) eq_refl eq_refl Hlt).
Defined.

Lemma last_correspondent_names_the_id_witness :
  exists corr_map,
    build_corr_map [mkcorr (VInt 5) (VStr "ACME"); mkcorr (VInt 5) (VStr "ACME Ltd");
                    mkcorr (VInt 8) (VStr "Bank")]
    = Ok corr_map /\
    corr_map !! KInt 5 = Some (VStr "ACME Ltd") /\
    map_get corr_map (VInt 5) (VStr "No Correspondent") = Ok (VStr "ACME Ltd").
Proof.
  assert (Hafter : Forall (fun c => key_of (corr_id c) <> key_of (VInt 5))
                     [mkcorr (VInt 8) (VStr "Bank")]).
  { repeat constructor. discriminate. }
  exact (last_correspondent_names_the_id
           [mkcorr (VInt 5) (VStr "ACME")] [mkcorr (VInt 8) (VStr "Bank")]
           (VInt 5) (VStr "ACME Ltd") eq_refl Hafter).
Defined.
